(** * Vital Signs Monitor (script.js): alarm engine, NIBP cycle, waveforms

    A shallow embedding of the [VitalSignsMonitor] class.  The object's
    fields, the part of the document it writes to and the browser's timer
    queue are gathered in one record; every method is a function on that
    record.  Waveform samples are computed over the real numbers.

    Left out: the canvas drawing, the display refreshes, the tone envelopes
    and the heartbeat cue clock.  They write nothing that the alarm engine,
    the NIBP cycle or the waveform formulas read. *)

From Stdlib Require Import ZArith NArith List String Ascii Bool Lia DecimalString.
From Stdlib Require Import Reals Lra.
Import ListNotations.

(** ** JavaScript numbers

    The numbers the monitor handles come from [parseInt]/[parseFloat] on
    slider values and from literals: finite decimals, or [NaN] when parsing
    fails.  [Dec m e] stands for [m / 10^e].  Comparison and printing agree
    with JavaScript on decimals of at most 15 significant digits whose
    magnitude lies in [1e-6, 1e21). *)
Module JSNumber.

Inductive num : Type :=
| NaN
| Dec (m : Z) (e : nat).

Definition of_Z (z : Z) : num := Dec z 0.

Definition pow10 (e : nat) : Z := (10 ^ Z.of_nat e)%Z.

(** [a < b]; every comparison with [NaN] is false. *)
Definition ltb (a b : num) : bool :=
  match a, b with
  | Dec m1 e1, Dec m2 e2 => (m1 * pow10 e2 <? m2 * pow10 e1)%Z
  | _, _ => false
  end.

(** [a > b] *)
Definition gtb (a b : num) : bool := ltb b a.

(** [a == b] on numbers; [NaN] equals nothing. *)
Definition eqb (a b : num) : bool :=
  match a, b with
  | Dec m1 e1, Dec m2 e2 => (m1 * pow10 e2 =? m2 * pow10 e1)%Z
  | _, _ => false
  end.

(** Drop trailing zeros of the fraction. *)
Fixpoint strip (m : Z) (e : nat) : Z * nat :=
  match e with
  | O => (m, O)
  | S e' => if (m mod 10 =? 0)%Z then strip (m / 10)%Z e' else (m, e)
  end.

Fixpoint zeros (n : nat) : string :=
  match n with
  | O => EmptyString
  | S k => String "0" (zeros k)
  end.

Definition digits (z : Z) : string :=
  NilZero.string_of_uint (N.to_uint (Z.to_N z)).

(** [`${a}`]: the decimal without exponent, without trailing zeros. *)
Definition toString (a : num) : string :=
  match a with
  | NaN => "NaN"
  | Dec m e =>
      let '(m', e') := strip m e in
      let q := (Z.abs m' / pow10 e')%Z in
      let r := (Z.abs m' mod pow10 e')%Z in
      let sign := if (m' <? 0)%Z then "-" else "" in
      match e' with
      | O => sign ++ digits q
      | S _ =>
          let f := digits r in
          sign ++ digits q ++ "." ++ zeros (e' - String.length f) ++ f
      end
  end%string.

(** Truncation of [a * k] to an integer, as [setTimeout] does with its delay
    ([NaN] becomes 0). *)
Definition scale_trunc (a : num) (k : Z) : Z :=
  match a with
  | NaN => 0
  | Dec m e => Z.quot (m * k) (pow10 e)
  end%Z.

End JSNumber.

Import JSNumber.

(** ** The monitor's data *)

Inductive vital : Type :=
| heartRate | spo2 | respiratoryRate | systolicBP | diastolicBP | temperature.

(** The property names, as the template literal prints them. *)
Definition vital_name (v : vital) : string :=
  match v with
  | heartRate => "heartRate"
  | spo2 => "spo2"
  | respiratoryRate => "respiratoryRate"
  | systolicBP => "systolicBP"
  | diastolicBP => "diastolicBP"
  | temperature => "temperature"
  end.

(** [Object.keys(this.vitals)]: the insertion order of the constructor. *)
Definition vital_keys : list vital :=
  [heartRate; spo2; respiratoryRate; systolicBP; diastolicBP; temperature].

Record Vitals : Type := mkVitals {
  v_heartRate : num;
  v_spo2 : num;
  v_respiratoryRate : num;
  v_systolicBP : num;
  v_diastolicBP : num;
  v_temperature : num
}.

(** [this.vitals[v]] *)
Definition get_vital (vs : Vitals) (v : vital) : num :=
  match v with
  | heartRate => v_heartRate vs
  | spo2 => v_spo2 vs
  | respiratoryRate => v_respiratoryRate vs
  | systolicBP => v_systolicBP vs
  | diastolicBP => v_diastolicBP vs
  | temperature => v_temperature vs
  end.

(** [this.vitals[v] = x] *)
Definition set_vital (v : vital) (x : num) (vs : Vitals) : Vitals :=
  match v with
  | heartRate => mkVitals x (v_spo2 vs) (v_respiratoryRate vs) (v_systolicBP vs) (v_diastolicBP vs) (v_temperature vs)
  | spo2 => mkVitals (v_heartRate vs) x (v_respiratoryRate vs) (v_systolicBP vs) (v_diastolicBP vs) (v_temperature vs)
  | respiratoryRate => mkVitals (v_heartRate vs) (v_spo2 vs) x (v_systolicBP vs) (v_diastolicBP vs) (v_temperature vs)
  | systolicBP => mkVitals (v_heartRate vs) (v_spo2 vs) (v_respiratoryRate vs) x (v_diastolicBP vs) (v_temperature vs)
  | diastolicBP => mkVitals (v_heartRate vs) (v_spo2 vs) (v_respiratoryRate vs) (v_systolicBP vs) x (v_temperature vs)
  | temperature => mkVitals (v_heartRate vs) (v_spo2 vs) (v_respiratoryRate vs) (v_systolicBP vs) (v_diastolicBP vs) x
  end.

Record Limits : Type := mkLimits { low : num; high : num }.

(** [this.alarmLimits], assigned once in the constructor. *)
Definition alarmLimits (v : vital) : Limits :=
  match v with
  | heartRate => mkLimits (of_Z 60) (of_Z 100)
  | spo2 => mkLimits (of_Z 95) (of_Z 100)
  | respiratoryRate => mkLimits (of_Z 12) (of_Z 20)
  | systolicBP => mkLimits (of_Z 90) (of_Z 140)
  | diastolicBP => mkLimits (of_Z 60) (of_Z 90)
  | temperature => mkLimits (Dec 360 1) (Dec 375 1)
  end.

Record Artifacts : Type := mkArtifacts {
  motion : bool;
  poorContact : bool;
  muscleTremor : bool;
  baselineDrift : bool
}.

(** *** The document

    Only the elements the modelled methods write to.  For an overlay the
    boolean says whether its class list holds ['alarm']; systolic and
    diastolic pressure share [bp-overlay]. *)
Inductive overlay : Type :=
| HrOverlay | Spo2Overlay | RrOverlay | BpOverlay | TempOverlay.

Definition vitalOverlays (v : vital) : overlay :=
  match v with
  | heartRate => HrOverlay
  | spo2 => Spo2Overlay
  | respiratoryRate => RrOverlay
  | systolicBP => BpOverlay
  | diastolicBP => BpOverlay
  | temperature => TempOverlay
  end.

Record Overlays : Type := mkOverlays {
  hr_overlay : bool;
  spo2_overlay : bool;
  rr_overlay : bool;
  bp_overlay : bool;
  temp_overlay : bool
}.

Definition set_overlay (o : overlay) (b : bool) (ov : Overlays) : Overlays :=
  match o with
  | HrOverlay => mkOverlays b (spo2_overlay ov) (rr_overlay ov) (bp_overlay ov) (temp_overlay ov)
  | Spo2Overlay => mkOverlays (hr_overlay ov) b (rr_overlay ov) (bp_overlay ov) (temp_overlay ov)
  | RrOverlay => mkOverlays (hr_overlay ov) (spo2_overlay ov) b (bp_overlay ov) (temp_overlay ov)
  | BpOverlay => mkOverlays (hr_overlay ov) (spo2_overlay ov) (rr_overlay ov) b (temp_overlay ov)
  | TempOverlay => mkOverlays (hr_overlay ov) (spo2_overlay ov) (rr_overlay ov) (bp_overlay ov) b
  end.

Definition no_overlays : Overlays := mkOverlays false false false false false.

(** The [nibp-status] element: its text and the two classes toggled on it. *)
Record StatusElement : Type := mkStatus {
  textContent : string;
  cls_measuring : bool;
  cls_success : bool
}.

Record Dom : Type := mkDom {
  alarmStatusActive : bool;      (* 'active' in alarm-status.classList *)
  alarmMessage : string;         (* alarm-message.textContent *)
  overlays : Overlays;
  nibpStatus : StatusElement;
  startBtnDisabled : bool;
  stopBtnDisabled : bool
}.

(** *** The window: clock and timers *)

(** The two closures handed to [requestAnimationFrame], and to [setTimeout]
    while frozen. *)
Inductive animation : Type :=
| AnimateECG       (* () => this.animateECG() *)
| AnimatePleth.    (* () => this.animatePleth() *)

(** The closures the program hands to [setTimeout]. *)
Inductive callback : Type :=
| NibpDeflate      (* outer closure of startNIBPMeasurement *)
| NibpComplete     (* inner closure of startNIBPMeasurement *)
| NibpRetrigger    (* () => this.startNIBPMeasurement() *)
| Unsilence        (* closure of silenceAlarm *)
| Animate (a : animation).

Record Timer : Type := mkTimer {
  tid : positive;
  due : Z;
  cb : callback
}.

Record Window : Type := mkWindow {
  now : Z;                    (* Date.now(), in ms *)
  nextTimerId : positive;
  timers : list Timer;        (* pending timeouts, in creation order *)
  rafQueue : list animation   (* pending animation-frame callbacks *)
}.

(** What the collaborators have received so far: the number of alarm tones
    built on the audio context, and the clock value sampled by each ECG and
    plethysmograph rendering, latest first. *)
Record Output : Type := mkOutput {
  alarmSounds : nat;
  ecgFrames : list Z;
  plethFrames : list Z
}.

Record Monitor : Type := mkMonitor {
  vitals : Vitals;
  alarmEnabled : bool;
  audioEnabled : bool;
  alarmActive : bool;
  alarmSilenced : bool;
  isFrozen : bool;
  artifacts : Artifacts;
  stElevation : num;
  currentRhythm : string;
  nibpMeasuring : bool;
  nibpInterval : num;
  nibpTimer : option positive;   (* null or a timer id *)
  audioContext : bool;           (* null or an AudioContext *)
  dom : Dom;
  win : Window;
  out : Output
}.

(** *** Field assignment

    [set_f x r] is [r.f = x]: one function per field the program assigns. *)

Definition set_alarmStatusActive (x : bool) (r : Dom) : Dom :=
  mkDom x (alarmMessage r) (overlays r) (nibpStatus r) (startBtnDisabled r)
    (stopBtnDisabled r).

Definition set_alarmMessage (x : string) (r : Dom) : Dom :=
  mkDom (alarmStatusActive r) x (overlays r) (nibpStatus r)
    (startBtnDisabled r) (stopBtnDisabled r).

Definition set_overlays (x : Overlays) (r : Dom) : Dom :=
  mkDom (alarmStatusActive r) (alarmMessage r) x (nibpStatus r)
    (startBtnDisabled r) (stopBtnDisabled r).

Definition set_nibpStatus (x : StatusElement) (r : Dom) : Dom :=
  mkDom (alarmStatusActive r) (alarmMessage r) (overlays r) x
    (startBtnDisabled r) (stopBtnDisabled r).

Definition set_startBtnDisabled (x : bool) (r : Dom) : Dom :=
  mkDom (alarmStatusActive r) (alarmMessage r) (overlays r) (nibpStatus r) x
    (stopBtnDisabled r).

Definition set_stopBtnDisabled (x : bool) (r : Dom) : Dom :=
  mkDom (alarmStatusActive r) (alarmMessage r) (overlays r) (nibpStatus r)
    (startBtnDisabled r) x.

Definition set_now (x : Z) (r : Window) : Window :=
  mkWindow x (nextTimerId r) (timers r) (rafQueue r).

Definition set_nextTimerId (x : positive) (r : Window) : Window :=
  mkWindow (now r) x (timers r) (rafQueue r).

Definition set_timers (x : list Timer) (r : Window) : Window :=
  mkWindow (now r) (nextTimerId r) x (rafQueue r).

Definition set_rafQueue (x : list animation) (r : Window) : Window :=
  mkWindow (now r) (nextTimerId r) (timers r) x.

Definition set_alarmSounds (x : nat) (r : Output) : Output :=
  mkOutput x (ecgFrames r) (plethFrames r).

Definition set_ecgFrames (x : list Z) (r : Output) : Output :=
  mkOutput (alarmSounds r) x (plethFrames r).

Definition set_plethFrames (x : list Z) (r : Output) : Output :=
  mkOutput (alarmSounds r) (ecgFrames r) x.

Definition set_vitals (x : Vitals) (r : Monitor) : Monitor :=
  mkMonitor x (alarmEnabled r) (audioEnabled r) (alarmActive r)
    (alarmSilenced r) (isFrozen r) (artifacts r) (stElevation r)
    (currentRhythm r) (nibpMeasuring r) (nibpInterval r) (nibpTimer r)
    (audioContext r) (dom r) (win r) (out r).

Definition set_alarmEnabled (x : bool) (r : Monitor) : Monitor :=
  mkMonitor (vitals r) x (audioEnabled r) (alarmActive r) (alarmSilenced r)
    (isFrozen r) (artifacts r) (stElevation r) (currentRhythm r)
    (nibpMeasuring r) (nibpInterval r) (nibpTimer r) (audioContext r) (dom
    r) (win r) (out r).

Definition set_audioEnabled (x : bool) (r : Monitor) : Monitor :=
  mkMonitor (vitals r) (alarmEnabled r) x (alarmActive r) (alarmSilenced r)
    (isFrozen r) (artifacts r) (stElevation r) (currentRhythm r)
    (nibpMeasuring r) (nibpInterval r) (nibpTimer r) (audioContext r) (dom
    r) (win r) (out r).

Definition set_alarmActive (x : bool) (r : Monitor) : Monitor :=
  mkMonitor (vitals r) (alarmEnabled r) (audioEnabled r) x (alarmSilenced r)
    (isFrozen r) (artifacts r) (stElevation r) (currentRhythm r)
    (nibpMeasuring r) (nibpInterval r) (nibpTimer r) (audioContext r) (dom
    r) (win r) (out r).

Definition set_alarmSilenced (x : bool) (r : Monitor) : Monitor :=
  mkMonitor (vitals r) (alarmEnabled r) (audioEnabled r) (alarmActive r) x
    (isFrozen r) (artifacts r) (stElevation r) (currentRhythm r)
    (nibpMeasuring r) (nibpInterval r) (nibpTimer r) (audioContext r) (dom
    r) (win r) (out r).

Definition set_isFrozen (x : bool) (r : Monitor) : Monitor :=
  mkMonitor (vitals r) (alarmEnabled r) (audioEnabled r) (alarmActive r)
    (alarmSilenced r) x (artifacts r) (stElevation r) (currentRhythm r)
    (nibpMeasuring r) (nibpInterval r) (nibpTimer r) (audioContext r) (dom
    r) (win r) (out r).

Definition set_artifacts (x : Artifacts) (r : Monitor) : Monitor :=
  mkMonitor (vitals r) (alarmEnabled r) (audioEnabled r) (alarmActive r)
    (alarmSilenced r) (isFrozen r) x (stElevation r) (currentRhythm r)
    (nibpMeasuring r) (nibpInterval r) (nibpTimer r) (audioContext r) (dom
    r) (win r) (out r).

Definition set_stElevation (x : num) (r : Monitor) : Monitor :=
  mkMonitor (vitals r) (alarmEnabled r) (audioEnabled r) (alarmActive r)
    (alarmSilenced r) (isFrozen r) (artifacts r) x (currentRhythm r)
    (nibpMeasuring r) (nibpInterval r) (nibpTimer r) (audioContext r) (dom
    r) (win r) (out r).

Definition set_currentRhythm (x : string) (r : Monitor) : Monitor :=
  mkMonitor (vitals r) (alarmEnabled r) (audioEnabled r) (alarmActive r)
    (alarmSilenced r) (isFrozen r) (artifacts r) (stElevation r) x
    (nibpMeasuring r) (nibpInterval r) (nibpTimer r) (audioContext r) (dom
    r) (win r) (out r).

Definition set_nibpMeasuring (x : bool) (r : Monitor) : Monitor :=
  mkMonitor (vitals r) (alarmEnabled r) (audioEnabled r) (alarmActive r)
    (alarmSilenced r) (isFrozen r) (artifacts r) (stElevation r)
    (currentRhythm r) x (nibpInterval r) (nibpTimer r) (audioContext r) (dom
    r) (win r) (out r).

Definition set_nibpInterval (x : num) (r : Monitor) : Monitor :=
  mkMonitor (vitals r) (alarmEnabled r) (audioEnabled r) (alarmActive r)
    (alarmSilenced r) (isFrozen r) (artifacts r) (stElevation r)
    (currentRhythm r) (nibpMeasuring r) x (nibpTimer r) (audioContext r)
    (dom r) (win r) (out r).

Definition set_nibpTimer (x : option positive) (r : Monitor) : Monitor :=
  mkMonitor (vitals r) (alarmEnabled r) (audioEnabled r) (alarmActive r)
    (alarmSilenced r) (isFrozen r) (artifacts r) (stElevation r)
    (currentRhythm r) (nibpMeasuring r) (nibpInterval r) x (audioContext r)
    (dom r) (win r) (out r).

Definition set_audioContext (x : bool) (r : Monitor) : Monitor :=
  mkMonitor (vitals r) (alarmEnabled r) (audioEnabled r) (alarmActive r)
    (alarmSilenced r) (isFrozen r) (artifacts r) (stElevation r)
    (currentRhythm r) (nibpMeasuring r) (nibpInterval r) (nibpTimer r) x
    (dom r) (win r) (out r).

Definition set_dom (x : Dom) (r : Monitor) : Monitor :=
  mkMonitor (vitals r) (alarmEnabled r) (audioEnabled r) (alarmActive r)
    (alarmSilenced r) (isFrozen r) (artifacts r) (stElevation r)
    (currentRhythm r) (nibpMeasuring r) (nibpInterval r) (nibpTimer r)
    (audioContext r) x (win r) (out r).

Definition set_win (x : Window) (r : Monitor) : Monitor :=
  mkMonitor (vitals r) (alarmEnabled r) (audioEnabled r) (alarmActive r)
    (alarmSilenced r) (isFrozen r) (artifacts r) (stElevation r)
    (currentRhythm r) (nibpMeasuring r) (nibpInterval r) (nibpTimer r)
    (audioContext r) (dom r) x (out r).

Definition set_out (x : Output) (r : Monitor) : Monitor :=
  mkMonitor (vitals r) (alarmEnabled r) (audioEnabled r) (alarmActive r)
    (alarmSilenced r) (isFrozen r) (artifacts r) (stElevation r)
    (currentRhythm r) (nibpMeasuring r) (nibpInterval r) (nibpTimer r)
    (audioContext r) (dom r) (win r) x.

(** ** Timers

    The event loop is ideal: a timeout runs in the millisecond it falls due,
    timeouts due together run in creation order. *)

(** [setTimeout(c, delay)]: returns the new timer's id.  The delay is taken
    as the number of milliseconds it denotes, which is what the host does
    with a delay of at most 2147483647 ms, the largest it keeps.  The
    delays of the source are 100, 2000, 3000, 120000 and
    [nibpInterval * 60000]; the last one is within that bound for an
    interval of at most 35791 minutes. *)
Definition setTimeout (c : callback) (delay : Z) (st : Monitor) : positive * Monitor :=
  let w := win st in
  let id := nextTimerId w in
  let t := mkTimer id (now w + Z.max 0 delay) c in
  (id, set_win (set_nextTimerId (Pos.succ id) (set_timers (timers w ++ [t]) w)) st).

(** [clearTimeout(id)] *)
Definition clearTimeout (id : positive) (st : Monitor) : Monitor :=
  let w := win st in
  set_win (set_timers (filter (fun t => negb (Pos.eqb (tid t) id)) (timers w)) w) st.

(** [requestAnimationFrame(c)] *)
Definition requestAnimationFrame (c : animation) (st : Monitor) : Monitor :=
  let w := win st in
  set_win (set_rafQueue (rafQueue w ++ [c]) w) st.

(** ** Alarm engine *)

(** [createAlarmSound]: builds one alarm tone unless there is no audio
    context.  The envelope of the tone is not modelled. *)
Definition createAlarmSound (st : Monitor) : Monitor :=
  if negb (audioContext st) then st
  else set_out (set_alarmSounds (S (alarmSounds (out st))) (out st)) st.

(** [triggerAlarm(alarms)] *)
Definition triggerAlarm (alarms : list string) (st : Monitor) : Monitor :=
  let st := set_alarmActive true st in
  let st :=
    set_dom (set_alarmMessage (String.concat ", " alarms)
               (set_alarmStatusActive true (dom st))) st in
  if audioEnabled st && audioContext st then createAlarmSound st else st.

(** [clearAlarms]: the five overlays are the elements of class
    [vital-overlay]. *)
Definition clearAlarms (st : Monitor) : Monitor :=
  let st := set_alarmActive false st in
  set_dom (set_overlays no_overlays (set_alarmStatusActive false (dom st))) st.

(** [value < limits.low || value > limits.high] *)
Definition breach (value : num) (limits : Limits) : bool :=
  ltb value (low limits) || gtb value (high limits).

(** [`${vital}: ${value} (Normal: ${limits.low}-${limits.high})`] *)
Definition alarm_text (v : vital) (value : num) (limits : Limits) : string :=
  (vital_name v ++ ": " ++ toString value ++ " (Normal: "
     ++ toString (low limits) ++ "-" ++ toString (high limits) ++ ")")%string.

(** The body of the [forEach] in [checkAlarms], on the pair of the [alarms]
    array and the overlays' classes. *)
Definition check_vital (vs : Vitals) (acc : list string * Overlays) (v : vital)
  : list string * Overlays :=
  let value := get_vital vs v in
  let limits := alarmLimits v in
  let o := vitalOverlays v in
  if breach value limits
  then (fst acc ++ [alarm_text v value limits], set_overlay o true (snd acc))
  else (fst acc, set_overlay o false (snd acc)).

(** The [alarms] array and the overlays after the [forEach]. *)
Definition collect_alarms (st : Monitor) : list string * Overlays :=
  fold_left (check_vital (vitals st)) vital_keys ([], overlays (dom st)).

(** [checkAlarms] *)
Definition checkAlarms (st : Monitor) : Monitor :=
  if negb (alarmEnabled st) || alarmSilenced st then st
  else
    let (alarms, ov) := collect_alarms st in
    let st := set_dom (set_overlays ov (dom st)) st in
    if (0 <? List.length alarms)%nat then triggerAlarm alarms st
    else clearAlarms st.

(** [testAlarm] *)
Definition testAlarm (st : Monitor) : Monitor :=
  triggerAlarm ["Test Alarm - All systems functioning"%string] st.

(** [silenceAlarm]: the timer's id is dropped. *)
Definition silenceAlarm (st : Monitor) : Monitor :=
  let st := set_alarmSilenced true st in
  let st := clearAlarms st in
  snd (setTimeout Unsilence 120000 st).

(** [resetAlarms] *)
Definition resetAlarms (st : Monitor) : Monitor :=
  set_alarmSilenced false (clearAlarms st).

(** [updateVital(vitalName, value)]; the two display refreshes write only
    text the model does not hold. *)
Definition updateVital (v : vital) (value : num) (st : Monitor) : Monitor :=
  checkAlarms (set_vitals (set_vital v value (vitals st)) st).

(** ** NIBP cycle *)

Definition set_status (s : StatusElement) (st : Monitor) : Monitor :=
  set_dom (set_nibpStatus s (dom st)) st.

Definition set_buttons (startDisabled stopDisabled : bool) (st : Monitor) : Monitor :=
  set_dom (set_stopBtnDisabled stopDisabled
             (set_startBtnDisabled startDisabled (dom st))) st.

(** [startNIBPMeasurement] *)
Definition startNIBPMeasurement (st : Monitor) : Monitor :=
  if nibpMeasuring st then st
  else
    let st := set_nibpMeasuring true st in
    let status := nibpStatus (dom st) in
    let st := set_status (mkStatus "Measuring..." true (cls_success status)) st in
    let st := set_buttons true false st in
    snd (setTimeout NibpDeflate 3000 st).

(** [stopNIBPMeasurement] *)
Definition stopNIBPMeasurement (st : Monitor) : Monitor :=
  let st := set_nibpMeasuring false st in
  let st := set_status (mkStatus "Stopped" false false) st in
  let st := set_buttons false true st in
  match nibpTimer st with
  | Some id => set_nibpTimer None (clearTimeout id st)
  | None => st
  end.

(** ** Waveform ticks

    A tick samples [Date.now()], draws one frame from it and re-arms itself.
    The drawing does not feed back into the monitor: the tick records the
    sampled clock value, from which the frame is computed further down. *)

(** [animateECG] *)
Definition animateECG (st : Monitor) : Monitor :=
  let time := now (win st) in
  let st := set_out (set_ecgFrames (time :: ecgFrames (out st)) (out st)) st in
  if negb (isFrozen st) then requestAnimationFrame AnimateECG st
  else snd (setTimeout (Animate AnimateECG) 100 st).

(** [animatePleth] *)
Definition animatePleth (st : Monitor) : Monitor :=
  let time := now (win st) in
  let st := set_out (set_plethFrames (time :: plethFrames (out st)) (out st)) st in
  if negb (isFrozen st) then requestAnimationFrame AnimatePleth st
  else snd (setTimeout (Animate AnimatePleth) 100 st).

(** ** Running callbacks *)

Definition run_animation (a : animation) (st : Monitor) : Monitor :=
  match a with
  | AnimateECG => animateECG st
  | AnimatePleth => animatePleth st
  end.

Definition run_callback (c : callback) (st : Monitor) : Monitor :=
  match c with
  | NibpDeflate =>
      let status := nibpStatus (dom st) in
      let st :=
        set_status (mkStatus "Deflating..." (cls_measuring status) (cls_success status)) st in
      snd (setTimeout NibpComplete 2000 st)
  | NibpComplete =>
      let st := set_status (mkStatus "Complete" false true) st in
      let st := set_buttons false true st in
      if gtb (nibpInterval st) (of_Z 0) then
        let (id, st) := setTimeout NibpRetrigger (scale_trunc (nibpInterval st) 60000) st in
        set_nibpTimer (Some id) st
      else st
  | NibpRetrigger => startNIBPMeasurement st
  | Unsilence => set_alarmSilenced false st
  | Animate a => run_animation a st
  end.

(** Callbacks run one after the other. *)
Definition run_all (cs : list callback) (st : Monitor) : Monitor :=
  fold_left (fun s c => run_callback c s) cs st.

Definition is_due (t : Z) (x : Timer) : bool := (due x <=? t)%Z.

(** One millisecond passes: the clock advances and the timeouts that are due
    run, in creation order. *)
Definition step_ms (st : Monitor) : Monitor :=
  let w := win st in
  let t := (now w + 1)%Z in
  let ready := filter (is_due t) (timers w) in
  let rest := filter (fun x => negb (is_due t x)) (timers w) in
  let st := set_win (set_timers rest (set_now t w)) st in
  fold_left (fun s x => run_callback (cb x) s) ready st.

(** [ms] milliseconds pass. *)
Definition elapse (ms : N) (st : Monitor) : Monitor :=
  N.iter ms step_ms st.

(** The browser paints: the queued animation-frame callbacks run. *)
Definition animationFrame (st : Monitor) : Monitor :=
  let w := win st in
  let queue := rafQueue w in
  let st := set_win (set_rafQueue [] w) st in
  fold_left (fun s a => run_animation a s) queue st.

(** ** The input surface: the listeners of [setupEventListeners] *)

Inductive command : Type :=
| UpdateVital (v : vital) (value : num)
| SetAlarmEnabled (checked : bool)
| TestAlarm
| SilenceAlarm
| ResetAlarms
| SetAudioEnabled (checked : bool)
| ToggleFreeze
| SetArtifacts (a : Artifacts)
| SetStElevation (value : num)
| SetRhythm (value : string)
| StartNIBP
| StopNIBP
| SetNibpInterval (value : num).

Definition handle (c : command) (st : Monitor) : Monitor :=
  match c with
  | UpdateVital v value => updateVital v value st
  | SetAlarmEnabled checked =>
      let st := set_alarmEnabled checked st in
      if negb (alarmEnabled st) then clearAlarms st else st
  | TestAlarm => testAlarm st
  | SilenceAlarm => silenceAlarm st
  | ResetAlarms => resetAlarms st
  | SetAudioEnabled checked => set_audioEnabled checked st
  | ToggleFreeze => set_isFrozen (negb (isFrozen st)) st
  | SetArtifacts a => set_artifacts a st
  | SetStElevation value => set_stElevation value st
  | SetRhythm value => set_currentRhythm value st
  | StartNIBP => startNIBPMeasurement st
  | StopNIBP => stopNIBPMeasurement st
  | SetNibpInterval value => set_nibpInterval value st
  end.

(** What happens to a running monitor: a user command, the passing of time,
    or a repaint. *)
Inductive event : Type :=
| Do (c : command)
| Wait (ms : N)
| Paint.

Definition react (st : Monitor) (e : event) : Monitor :=
  match e with
  | Do c => handle c st
  | Wait ms => elapse ms st
  | Paint => animationFrame st
  end.

Definition run (es : list event) (st : Monitor) : Monitor :=
  fold_left react es st.

(** ** Construction *)

(** The constructor's assignments, on the document [d] as loaded, at clock
    value [t0]. *)
Definition constructor (d : Dom) (t0 : Z) : Monitor :=
  mkMonitor
    (mkVitals (of_Z 72) (of_Z 98) (of_Z 16) (of_Z 120) (of_Z 80) (Dec 365 1))
    true true false false false
    (mkArtifacts false false false false)
    (Dec 0 1) "NSR" false (of_Z 5) None false
    d
    (mkWindow t0 1%positive [] [])
    (mkOutput 0 [] []).

(** [setupAudio]; [webAudio] says whether an audio context can be made.  On
    success both sounds are built once as a test. *)
Definition setupAudio (webAudio : bool) (st : Monitor) : Monitor :=
  if negb webAudio then set_audioEnabled false st
  else createAlarmSound (set_audioContext true st).

(** [init], without the heartbeat cue clock and the display refreshes. *)
Definition init (webAudio : bool) (st : Monitor) : Monitor :=
  let st := setupAudio webAudio st in
  animatePleth (animateECG st).

Definition new_monitor (d : Dom) (webAudio : bool) (t0 : Z) : Monitor :=
  init webAudio (constructor d t0).

(** A blank document. *)
Definition blank_dom : Dom :=
  mkDom false "" no_overlays (mkStatus "" false false) false false.

(** ** Observations on a run *)

Definition is_unsilence (c : callback) : bool :=
  match c with
  | Unsilence => true
  | _ => false
  end.

(** The due times of the pending silence expiries. *)
Definition pending_unsilence (st : Monitor) : list Z :=
  map due (filter (fun t => is_unsilence (cb t)) (timers (win st))).

(** The events other than a reset and the alarm test. *)
Definition is_calm (e : event) : bool :=
  match e with
  | Do ResetAlarms => false
  | Do TestAlarm => false
  | _ => true
  end.

(** The events other than a stop of the NIBP measurement. *)
Definition is_not_stop (e : event) : bool :=
  match e with
  | Do StopNIBP => false
  | _ => true
  end.

(** The time a list of events takes. *)
Definition waited (es : list event) : N :=
  fold_right (fun e n => match e with Wait ms => (ms + n)%N | _ => n end) 0%N es.

(** The alarm is silenced and inactive, and stays silenced up to clock
    value [T]: every pending silence expiry is due at [T] or later, and a
    further [silenceAlarm] would expire no earlier. *)
Definition Quiet (T : Z) (st : Monitor) : Prop :=
  alarmSilenced st = true /\
  alarmActive st = false /\
  (T <= now (win st) + 120000)%Z /\
  forall t : Timer,
    In t (timers (win st)) -> is_unsilence (cb t) = true -> (T <= due t)%Z.

(** The monitor right after the page has loaded at clock 0, with working
    audio. *)
Definition fresh : Monitor := new_monitor blank_dom true 0.

(** ** Waveforms

    Samples are real numbers: the arithmetic of the source is read over the
    reals, [Math.PI] as [PI] and [Math.sin] as [sin]. *)
Module Waveform.

Local Open Scope R_scope.

(** *** [Math.random]

    The [i]-th call of [Math.random] returns [random i]; a computation that
    draws threads the number of calls made so far. *)
Definition Rand (A : Type) : Type := (nat -> R) -> nat -> A * nat.

Definition ret {A : Type} (a : A) : Rand A := fun _ i => (a, i).

Definition bind {A B : Type} (c : Rand A) (k : A -> Rand B) : Rand B :=
  fun random i => let (a, j) := c random i in k a random j.

Definition Math_random : Rand R := fun random i => (random i, S i).

Notation "x <- c ;; k" := (bind c (fun x => k))
  (at level 61, c at next level, right associativity).

(** [x % 1] on a number: the remainder has the sign of [x].  It is the
    remainder of the real number, with none of the rounding of a double. *)
Definition rem1 (x : R) : R :=
  if Rle_dec 0 x then frac_part x else - frac_part (- x).

(** The value of a finite number. *)
Definition to_R (a : num) : option R :=
  match a with
  | NaN => None
  | Dec m e => Some (IZR m / IZR (pow10 e))
  end.

(** The normal beat, written three times in the source (cases ['NSR'],
    ['PVC'] and [default]). *)
Definition normal_beat (beatPhase : R) : R :=
  if Rlt_dec beatPhase 0.1 then sin (beatPhase * PI * 10) * 0.2
  else if Rlt_dec beatPhase 0.15 then sin ((beatPhase - 0.1) * PI * 20) * 1.0
  else if Rlt_dec beatPhase 0.3 then sin ((beatPhase - 0.15) * PI * 6.67) * 0.3
  else 0.

(** [generateArrhythmiaECG(beatPhase, time)], with [this.currentRhythm] as
    first argument. *)
Definition generateArrhythmiaECG (currentRhythm : string) (beatPhase time : R) : Rand R :=
  if String.eqb currentRhythm "NSR" then
    ret (normal_beat beatPhase)
  else if String.eqb currentRhythm "AF" then
    u <- Math_random ;;
    let irregularity := (u - 0.5) * 0.3 in
    ret (if Rlt_dec beatPhase 0.1 then sin (beatPhase * PI * 10) * (0.1 + irregularity)
         else if Rlt_dec beatPhase 0.15 then sin ((beatPhase - 0.1) * PI * 20) * 1.0
         else if Rlt_dec beatPhase 0.3 then sin ((beatPhase - 0.15) * PI * 6.67) * 0.3
         else 0)
  else if String.eqb currentRhythm "VT" then
    ret (if Rlt_dec beatPhase 0.1 then sin (beatPhase * PI * 10) * 0.1
         else if Rlt_dec beatPhase 0.2 then sin ((beatPhase - 0.1) * PI * 10) * 1.2
         else if Rlt_dec beatPhase 0.4 then sin ((beatPhase - 0.2) * PI * 5) * 0.4
         else 0)
  else if String.eqb currentRhythm "VF" then
    u <- Math_random ;;
    ret ((u - 0.5) * 2.0)
  else if String.eqb currentRhythm "PVC" then
    pvcChance <- Math_random ;;
    if Rlt_dec pvcChance 0.1 then
      ret (if Rlt_dec beatPhase 0.15 then sin (beatPhase * PI * 13.3) * 1.5
           else if Rlt_dec beatPhase 0.3 then sin ((beatPhase - 0.15) * PI * 6.67) * 0.5
           else 0)
    else ret (normal_beat beatPhase)
  else
    ret (normal_beat beatPhase).

(** [addArtifacts(amplitude, time)] *)
Definition addArtifacts (a : Artifacts) (amplitude time : R) : Rand R :=
  let amplitude := if motion a then amplitude + sin (time * 2) * 0.3 else amplitude in
  amplitude <-
    (if poorContact a
     then u <- Math_random ;; ret (amplitude + (u - 0.5) * 0.4)
     else ret amplitude) ;;
  let amplitude := if muscleTremor a then amplitude + sin (time * 8) * 0.2 else amplitude in
  let amplitude := if baselineDrift a then amplitude + sin (time * 0.1) * 0.5 else amplitude in
  ret amplitude.

(** The settings a frame is drawn from, as reals. *)
Record Signal : Type := mkSignal {
  sig_rhythm : string;
  sig_heartRate : R;
  sig_spo2 : R;
  sig_stElevation : R;
  sig_artifacts : Artifacts
}.

(** The monitor's settings, when heart rate, SpO2 and ST elevation are
    finite. *)
Definition signal_of (st : Monitor) : option Signal :=
  match to_R (v_heartRate (vitals st)), to_R (v_spo2 (vitals st)), to_R (stElevation st) with
  | Some hr, Some sp, Some ste =>
      Some (mkSignal (currentRhythm st) hr sp ste (artifacts st))
  | _, _, _ => None
  end.

(** The body of the [for] loop of [animateECG] at column [x]. *)
Definition ecg_sample (s : Signal) (time : R) (width x : nat) : Rand R :=
  let t := time + (INR x / INR width) * 2 in
  let beatPhase := rem1 (t * sig_heartRate s / 60) in
  amplitude <- generateArrhythmiaECG (sig_rhythm s) beatPhase t ;;
  let amplitude :=
    if Rle_dec 0.15 beatPhase then
      if Rlt_dec beatPhase 0.25 then amplitude + sig_stElevation s * 0.3 else amplitude
    else amplitude in
  u <- Math_random ;;
  let amplitude := amplitude + (u - 0.5) * 0.05 in
  addArtifacts (sig_artifacts s) amplitude t.

(** The body of the [for] loop of [animatePleth] at column [x]. *)
Definition pleth_sample (s : Signal) (time : R) (width x : nat) : Rand R :=
  let t := time + (INR x / INR width) * 2 in
  let beatPhase := rem1 (t * sig_heartRate s / 60) in
  let amplitude := 0.3 + 0.7 * sin (beatPhase * PI * 2) in
  let amplitude := amplitude * (sig_spo2 s / 100) in
  u <- Math_random ;;
  ret (amplitude + (u - 0.5) * 0.1).

(** [for (let x = from; x < from + count; x++) data.push(body(x))] *)
Fixpoint for_columns (body : nat -> Rand R) (from count : nat) : Rand (list R) :=
  match count with
  | O => ret []
  | S n =>
      a <- body from ;;
      rest <- for_columns body (S from) n ;;
      ret (a :: rest)
  end.

(** The frame a tick draws when [Date.now()] is [clock]: [time] is
    [Date.now() / 1000]. *)
Definition ecg_frame (s : Signal) (width : nat) (clock : Z) : Rand (list R) :=
  let time := IZR clock / 1000 in
  for_columns (ecg_sample s time width) 0 width.

Definition pleth_frame (s : Signal) (width : nat) (clock : Z) : Rand (list R) :=
  let time := IZR clock / 1000 in
  for_columns (pleth_sample s time width) 0 width.

(** A source of draws without noise: every noise term [(u - 0.5) * c]
    vanishes. *)
Definition no_noise : nat -> R := fun _ => 0.5.

(** The settings of a fresh monitor: NSR at 72 bpm, SpO2 98, no ST
    deviation, no artifacts. *)
Definition fresh_signal : Signal :=
  mkSignal "NSR" 72 98 0 (mkArtifacts false false false false).

(** *** The formulas of the specification

    Written from the specification's words, window by window, to be compared
    with [generateArrhythmiaECG]. *)

(** [x] lies in the half-open window [[a, b)]. *)
Definition in_window (a b x : R) : bool :=
  if Rle_dec a x then (if Rlt_dec x b then true else false) else false.

(** NSR: P wave on [[0, 0.1)], QRS complex on [[0.1, 0.15)], T wave on
    [[0.15, 0.3)], else 0. *)
Definition nsr_by_windows (phase : R) : R :=
  if in_window 0 0.1 phase then sin (phase * PI * 10) * 0.2
  else if in_window 0.1 0.15 phase then sin ((phase - 0.1) * PI * 20) * 1.0
  else if in_window 0.15 0.3 phase then sin ((phase - 0.15) * PI * 6.67) * 0.3
  else 0.

(** AF as claim C8 words it: the NSR windows, the P-wave scale 0.2 of NSR
    perturbed by [(u - 0.5) * 0.3]. *)
Definition af_as_claimed (u phase : R) : R :=
  if in_window 0 0.1 phase then sin (phase * PI * 10) * (0.2 + (u - 0.5) * 0.3)
  else nsr_by_windows phase.

(** AF with the P-wave scale 0.1 perturbed by [(u - 0.5) * 0.3]. *)
Definition af_by_windows (u phase : R) : R :=
  if in_window 0 0.1 phase then sin (phase * PI * 10) * (0.1 + (u - 0.5) * 0.3)
  else nsr_by_windows phase.

End Waveform.

(** ** ECG analysis displays

    The elements [updateSTDisplay] and [updateRhythmDisplay] write to.  The
    two texts printed with [toFixed] are left out. *)
Record AnalysisDom : Type := mkAnalysisDom {
  stOverlay : bool;           (* 'alarm' in st-overlay.classList *)
  rhythmValue : string;       (* rhythm-value.textContent *)
  arrhythmiaOverlay : bool    (* 'alarm' in arrhythmia-overlay.classList *)
}.

(** [updateSTDisplay]: the overlay's class. *)
Definition updateSTDisplay (st : Monitor) (d : AnalysisDom) : AnalysisDom :=
  if gtb (stElevation st) (Dec 1 1) || ltb (stElevation st) (Dec (-5) 2)
  then mkAnalysisDom true (rhythmValue d) (arrhythmiaOverlay d)
  else mkAnalysisDom false (rhythmValue d) (arrhythmiaOverlay d).

Definition abnormalRhythms : list string :=
  ["AF"; "AFL"; "VT"; "VF"; "PVC"; "PAC"]%string.

(** [l.includes(s)] on strings. *)
Definition includes (l : list string) (s : string) : bool :=
  existsb (String.eqb s) l.

(** [updateRhythmDisplay] *)
Definition updateRhythmDisplay (st : Monitor) (d : AnalysisDom) : AnalysisDom :=
  let d := mkAnalysisDom (stOverlay d) (currentRhythm st) (arrhythmiaOverlay d) in
  if includes abnormalRhythms (currentRhythm st)
  then mkAnalysisDom (stOverlay d) (rhythmValue d) true
  else mkAnalysisDom (stOverlay d) (rhythmValue d) false.

(** ** Further observations *)

Definition vital_eqb (a b : vital) : bool :=
  match a, b with
  | heartRate, heartRate => true
  | spo2, spo2 => true
  | respiratoryRate, respiratoryRate => true
  | systolicBP, systolicBP => true
  | diastolicBP, diastolicBP => true
  | temperature, temperature => true
  | _, _ => false
  end.

Definition animation_eqb (a b : animation) : bool :=
  match a, b with
  | AnimateECG, AnimateECG => true
  | AnimatePleth, AnimatePleth => true
  | _, _ => false
  end.

(** The callback is the tick of waveform [a]. *)
Definition is_tick (a : animation) (c : callback) : bool :=
  match c with
  | Animate b => animation_eqb a b
  | _ => false
  end.

(** How many ticks of waveform [a] are pending, as animation-frame
    callbacks or as timeouts. *)
Definition pending_ticks (a : animation) (st : Monitor) : nat :=
  (List.length (filter (animation_eqb a) (rafQueue (win st)))
   + List.length (filter (fun t => is_tick a (cb t)) (timers (win st))))%nat.

(** The timer queue is well formed: ids are distinct and below the next id
    to hand out, and [nibpTimer], when set, is the id of no pending timeout
    other than a retrigger. *)
Definition WellFormed (st : Monitor) : Prop :=
  NoDup (map tid (timers (win st))) /\
  (forall t : Timer,
      In t (timers (win st)) -> (tid t < nextTimerId (win st))%positive) /\
  (forall id : positive,
      nibpTimer st = Some id ->
      (id < nextTimerId (win st))%positive /\
      forall t : Timer, In t (timers (win st)) -> tid t = id -> cb t = NibpRetrigger).

(** The alarm banner shows exactly when the alarm is active, and no overlay
    is lit while it is not. *)
Definition AlarmConsistent (st : Monitor) : Prop :=
  alarmStatusActive (dom st) = alarmActive st /\
  (alarmActive st = false -> overlays (dom st) = no_overlays).

(** The events other than the alarm test and the enabling of alarms. *)
Definition keeps_disabled (e : event) : bool :=
  match e with
  | Do TestAlarm => false
  | Do (SetAlarmEnabled true) => false
  | _ => true
  end.

(** ** Heartbeat cue clock *)
Module Heartbeat.

Import Waveform.
Local Open Scope R_scope.

(** The [variation] of one poll, from the draw [u]. *)
Definition variation (heartRate u : R) : R :=
  if Rlt_dec heartRate 60 then (u - 0.5) * 0.15
  else if Rlt_dec 100 heartRate then (u - 0.5) * 0.05
  else (u - 0.5) * 0.08.

(** [baseInterval * (1 + variation)], in ms. *)
Definition interval (heartRate u : R) : R :=
  let baseInterval := 60000 / heartRate in
  baseInterval * (1 + variation heartRate u).

(** [createHeartbeatSound] with an audio context, as far as its caller can
    tell: whether the call returns.  The envelope of the beep ramps the gain
    to [0.3 * this.volume] and then, exponentially, to [0.1 * this.volume];
    the audio interface refuses a target that is not finite, and refuses 0
    as the target of an exponential ramp, by throwing.  The call returns
    when the volume is finite and not 0, and throws otherwise. *)
Definition createHeartbeatSound (volume : num) : bool :=
  match volume with
  | NaN => false
  | Dec m _ => negb (m =? 0)%Z
  end.

(** What one call of [startHeartbeatAudio] does: it returns at once; or it
    re-arms itself 25 ms later, having sounded the beep or not, with the new
    value of [lastHeartbeatTime]; or the beep throws, and the call ends
    there, [lastHeartbeatTime] not written and no timeout set. *)
Inductive poll : Type :=
| Returned
| Rearmed (beep : bool) (lastHeartbeatTime : Z)
| Threw.

(** [startHeartbeatAudio], with [this.volume] and [this.lastHeartbeatTime]
    as arguments.  A heart rate of 0 makes the interval infinite and a
    [NaN] one makes it [NaN]: the comparison fails in both cases. *)
Definition startHeartbeatAudio (st : Monitor) (volume : num) (lastHeartbeatTime : Z) :
    Rand poll :=
  if negb (audioEnabled st) || negb (audioContext st) then ret Returned
  else
    u <- Math_random ;;
    match to_R (v_heartRate (vitals st)) with
    | None => ret (Rearmed false lastHeartbeatTime)
    | Some rate =>
        if Req_dec_T rate 0 then ret (Rearmed false lastHeartbeatTime)
        else
          let now := now (win st) in
          if Rle_dec (interval rate u) (IZR (now - lastHeartbeatTime))
          then
            if createHeartbeatSound volume
            then ret (Rearmed true now)
            else ret Threw
          else ret (Rearmed false lastHeartbeatTime)
    end.

End Heartbeat.

(** ** The NIBP cycle seen by itself

    What the cycle reads and writes, apart from the buttons: the status
    text, the flag, the interval, the clock, and its own pending timeouts
    as pairs of due time and callback, in creation order. *)

Definition is_nibp (c : callback) : bool :=
  match c with
  | NibpDeflate | NibpComplete | NibpRetrigger => true
  | _ => false
  end.

Definition nibp_pending (st : Monitor) : list (Z * callback) :=
  map (fun t => (due t, cb t)) (filter (fun t => is_nibp (cb t)) (timers (win st))).

Record NibpView : Type := mkNibpView {
  nv_text : string;
  nv_measuring : bool;
  nv_interval : num;
  nv_now : Z;
  nv_pending : list (Z * callback)
}.

Definition nibp_view (st : Monitor) : NibpView :=
  mkNibpView (textContent (nibpStatus (dom st))) (nibpMeasuring st)
    (nibpInterval st) (now (win st)) (nibp_pending st).

(** The effect of a callback on the view. *)
Definition view_callback (c : callback) (v : NibpView) : NibpView :=
  match c with
  | NibpDeflate =>
      mkNibpView "Deflating..." (nv_measuring v) (nv_interval v) (nv_now v)
        (nv_pending v ++ [((nv_now v + 2000)%Z, NibpComplete)])
  | NibpComplete =>
      if gtb (nv_interval v) (of_Z 0) then
        mkNibpView "Complete" (nv_measuring v) (nv_interval v) (nv_now v)
          (nv_pending v
             ++ [((nv_now v + Z.max 0 (scale_trunc (nv_interval v) 60000))%Z,
                  NibpRetrigger)])
      else
        mkNibpView "Complete" (nv_measuring v) (nv_interval v) (nv_now v)
          (nv_pending v)
  | NibpRetrigger =>
      if nv_measuring v then v
      else
        mkNibpView "Measuring..." true (nv_interval v) (nv_now v)
          (nv_pending v ++ [((nv_now v + 3000)%Z, NibpDeflate)])
  | _ => v
  end.

(** The effect of one millisecond on the view. *)
Definition view_step_ms (v : NibpView) : NibpView :=
  let t := (nv_now v + 1)%Z in
  let ready := filter (fun p => (fst p <=? t)%Z) (nv_pending v) in
  let rest := filter (fun p => negb (fst p <=? t)%Z) (nv_pending v) in
  fold_left (fun w p => view_callback (snd p) w) ready
    (mkNibpView (nv_text v) (nv_measuring v) (nv_interval v) t rest).

(** * Properties *)

Example toString_int : toString (of_Z 45) = "45"%string.
Proof. reflexivity. Qed.

Example toString_frac : toString (Dec 375 1) = "37.5"%string.
Proof. reflexivity. Qed.

Example toString_trailing : toString (Dec 360 1) = "36"%string.
Proof. reflexivity. Qed.

Example toString_small : toString (Dec (-5) 2) = "-0.05"%string.
Proof. reflexivity. Qed.

(** ** Alarm evaluation *)

Lemma check_vital_fold (st : Monitor) (l : list vital) (acc : list string)
    (ov : Overlays) :
  fst (fold_left (check_vital (vitals st)) l (acc, ov))
  = acc ++ map (fun v => alarm_text v (get_vital (vitals st) v) (alarmLimits v))
             (filter (fun v => breach (get_vital (vitals st) v) (alarmLimits v)) l).
Proof.
  revert acc ov.
  induction l as [|v l IH]; intros acc ov; cbn [fold_left filter].
  - cbn. now rewrite app_nil_r.
  - unfold check_vital at 2. cbn [fst snd].
    destruct (breach (get_vital (vitals st) v) (alarmLimits v)); rewrite IH;
      [|reflexivity].
    cbn [map]. now rewrite <- app_assoc.
Qed.

Lemma collect_alarms_spec (st : Monitor) :
  fst (collect_alarms st)
  = map (fun v => alarm_text v (get_vital (vitals st) v) (alarmLimits v))
      (filter (fun v => breach (get_vital (vitals st) v) (alarmLimits v)) vital_keys).
Proof. unfold collect_alarms. now rewrite check_vital_fold. Qed.

Lemma filter_nonempty {A : Type} (f : A -> bool) (l : list A) :
  (0 <? List.length (filter f l))%nat = existsb f l.
Proof.
  induction l as [|a l IH]; [reflexivity|].
  cbn [filter existsb]. destruct (f a); [reflexivity|exact IH].
Qed.

Lemma alarmActive_triggerAlarm (alarms : list string) (st : Monitor) :
  alarmActive (triggerAlarm alarms st) = true.
Proof.
  unfold triggerAlarm, createAlarmSound. cbn.
  destruct (audioEnabled st), (audioContext st); reflexivity.
Qed.

Lemma alarmMessage_triggerAlarm (alarms : list string) (st : Monitor) :
  alarmMessage (dom (triggerAlarm alarms st)) = String.concat ", " alarms.
Proof.
  unfold triggerAlarm, createAlarmSound. cbn.
  destruct (audioEnabled st), (audioContext st); reflexivity.
Qed.

Lemma pow10_pos (e : nat) : (0 < pow10 e)%Z.
Proof. unfold pow10. apply Z.pow_pos_nonneg; lia. Qed.

(** A value equal to one of its limits is not flagged. *)
Lemma boundary_not_breach (v : vital) (x : num) :
  eqb x (low (alarmLimits v)) = true \/ eqb x (high (alarmLimits v)) = true ->
  breach x (alarmLimits v) = false.
Proof.
  destruct x as [|m e]; [intros [H|H]; discriminate H|].
  pose proof (pow10_pos e) as Hp.
  unfold breach, gtb, ltb, eqb.
  destruct v; cbn [alarmLimits low high of_Z];
    change (pow10 0) with 1%Z; change (pow10 1) with 10%Z;
    rewrite Bool.orb_false_iff, !Z.ltb_ge, !Z.eqb_eq; lia.
Qed.

Lemma vital_keys_complete (v : vital) : In v vital_keys.
Proof. destruct v; cbn; tauto. Qed.

(** When evaluation runs, the alarm is active afterwards exactly when some
    vital is out of its limits. *)
Lemma checkAlarms_active (st : Monitor) :
  alarmEnabled st = true -> alarmSilenced st = false ->
  alarmActive (checkAlarms st)
  = existsb (fun v => breach (get_vital (vitals st) v) (alarmLimits v)) vital_keys.
Proof.
  intros Hen Hsil. pose proof (collect_alarms_spec st) as Hc.
  unfold checkAlarms. rewrite Hen, Hsil. cbn [negb orb].
  destruct (collect_alarms st) as [al ov]. cbn [fst] in Hc. subst al.
  rewrite length_map, filter_nonempty. unfold breach.
  match goal with |- context [if ?b then _ else _] => destruct b end;
    [apply alarmActive_triggerAlarm|reflexivity].
Qed.

(** C1: when evaluation runs (alarms enabled, not silenced), the [alarms]
    array holds, in key order, exactly one message
    ["<vitalName>: <value> (Normal: <low>-<high>)"] per vital with
    [value < low] or [value > high]; the alarm is active exactly when some
    vital is flagged, and then the message line is the messages joined by
    [", "]; a value equal to one of its limits is never flagged.  With the
    heart rate set to 45 on a freshly built monitor the array is
    [["heartRate: 45 (Normal: 60-100)"]] and the alarm is active. *)
Theorem checkAlarms_flags_breaches :
  (forall st : Monitor,
      alarmEnabled st = true -> alarmSilenced st = false ->
      let value v := get_vital (vitals st) v in
      let flagged v :=
        ltb (value v) (low (alarmLimits v)) || gtb (value v) (high (alarmLimits v)) in
      let alarms :=
        map (fun v =>
               (vital_name v ++ ": " ++ toString (value v) ++ " (Normal: "
                  ++ toString (low (alarmLimits v)) ++ "-"
                  ++ toString (high (alarmLimits v)) ++ ")")%string)
            (filter flagged vital_keys) in
      fst (collect_alarms st) = alarms /\
      alarmActive (checkAlarms st) = existsb flagged vital_keys /\
      (existsb flagged vital_keys = true ->
       alarmMessage (dom (checkAlarms st)) = String.concat ", " alarms)) /\
  (forall (v : vital) (x : num),
      eqb x (low (alarmLimits v)) = true \/ eqb x (high (alarmLimits v)) = true ->
      ltb x (low (alarmLimits v)) || gtb x (high (alarmLimits v)) = false) /\
  (forall (d : Dom) (webAudio : bool) (t0 : Z),
      let st := set_vitals (set_vital heartRate (of_Z 45) (vitals (new_monitor d webAudio t0)))
                  (new_monitor d webAudio t0) in
      low (alarmLimits heartRate) = of_Z 60 /\
      high (alarmLimits heartRate) = of_Z 100 /\
      fst (collect_alarms st) = ["heartRate: 45 (Normal: 60-100)"%string] /\
      updateVital heartRate (of_Z 45) (new_monitor d webAudio t0) = checkAlarms st /\
      alarmActive (checkAlarms st) = true /\
      alarmMessage (dom (checkAlarms st)) = "heartRate: 45 (Normal: 60-100)"%string).
Proof.
  split; [|split].
  - intros st Hen Hsil value flagged alarms.
    pose proof (collect_alarms_spec st) as Hc.
    change (fst (collect_alarms st) = alarms) in Hc.
    split; [exact Hc|].
    split; [exact (checkAlarms_active st Hen Hsil)|].
    intros Hsome. unfold checkAlarms. rewrite Hen, Hsil. cbn [negb orb].
    destruct (collect_alarms st) as [al ov]. cbn [fst] in Hc. subst al.
    unfold alarms at 1. rewrite length_map, filter_nonempty.
    change (existsb flagged vital_keys = true) in Hsome. rewrite Hsome.
    apply alarmMessage_triggerAlarm.
  - intros v x H. exact (boundary_not_breach v x H).
  - intros d webAudio t0 st.
    destruct webAudio; repeat split; reflexivity.
Qed.

(** The heart rate set to 45 on a fresh monitor: evaluation runs and flags
    the heart rate. *)
Lemma checkAlarms_flags_breaches_witness :
  let st := set_vitals (set_vital heartRate (of_Z 45) (vitals fresh)) fresh in
  alarmEnabled st = true /\ alarmSilenced st = false /\
  alarmActive (checkAlarms st) = true.
Proof.
  intros st.
  split; [reflexivity|]. split; [reflexivity|].
  destruct checkAlarms_flags_breaches as [H _].
  destruct (H st eq_refl eq_refl) as (_ & Hactive & _).
  rewrite Hactive. reflexivity.
Defined.

(** C10: [triggerAlarm], and so [testAlarm], has no guard: whatever
    [alarmEnabled] and [alarmSilenced] are, the alarm becomes active, the
    message is displayed, and one alarm tone is built exactly when audio is
    enabled and an audio context exists; [checkAlarms] in the same state
    does nothing when alarms are disabled or silenced. *)
Theorem testAlarm_ignores_guards (st : Monitor) :
  alarmActive (testAlarm st) = true /\
  alarmStatusActive (dom (testAlarm st)) = true /\
  alarmMessage (dom (testAlarm st)) = "Test Alarm - All systems functioning"%string /\
  alarmSounds (out (testAlarm st))
  = (if audioEnabled st && audioContext st
     then S (alarmSounds (out st)) else alarmSounds (out st)) /\
  alarmEnabled (testAlarm st) = alarmEnabled st /\
  alarmSilenced (testAlarm st) = alarmSilenced st /\
  (forall alarms : list string,
      alarmActive (triggerAlarm alarms st) = true /\
      alarmMessage (dom (triggerAlarm alarms st)) = String.concat ", " alarms /\
      alarmSounds (out (triggerAlarm alarms st))
      = (if audioEnabled st && audioContext st
         then S (alarmSounds (out st)) else alarmSounds (out st))) /\
  (if negb (alarmEnabled st) || alarmSilenced st
   then checkAlarms st = st else True).
Proof.
  destruct st as [vs en au act sil fr ar ste rh nm ni nt ctx d w o].
  unfold testAlarm, triggerAlarm, createAlarmSound, checkAlarms. cbn.
  destruct au, ctx, en, sil; cbn; repeat (split; try reflexivity; intros); trivial.
Qed.

(** ** What callbacks and time do to the alarm state *)

Ltac unfold_methods :=
  unfold run_callback, run_animation, startNIBPMeasurement, stopNIBPMeasurement,
    animateECG, animatePleth, silenceAlarm, resetAlarms, clearAlarms,
    set_status, set_buttons, setTimeout, clearTimeout, requestAnimationFrame.

Ltac split_ifs :=
  repeat match goal with
    | |- context [if ?b then _ else _] => destruct b
    | |- context [match ?o with Some _ => _ | None => _ end] => destruct o
    end.

Ltac by_cases_on c :=
  destruct c as [| | | |[|]]; unfold_methods; cbn; split_ifs; cbn.

(** What a callback leaves alone. *)
Lemma run_callback_frame (c : callback) (st : Monitor) :
  vitals (run_callback c st) = vitals st /\
  alarmEnabled (run_callback c st) = alarmEnabled st /\
  alarmActive (run_callback c st) = alarmActive st /\
  now (win (run_callback c st)) = now (win st).
Proof. by_cases_on c; repeat split; reflexivity. Qed.

Lemma run_callback_silenced (c : callback) (st : Monitor) :
  alarmSilenced (run_callback c st) = alarmSilenced st && negb (is_unsilence c).
Proof.
  by_cases_on c; rewrite ?Bool.andb_true_r, ?Bool.andb_false_r; reflexivity.
Qed.

(** A callback clears no timer; the ones it creates are no silence
    expiries. *)
Lemma run_callback_timers (c : callback) (st : Monitor) :
  exists l : list Timer,
    timers (win (run_callback c st)) = timers (win st) ++ l /\
    Forall (fun t => is_unsilence (cb t) = false) l.
Proof.
  by_cases_on c;
    first [ exists []; split; [now rewrite app_nil_r|constructor]
          | eexists; split; [reflexivity|repeat constructor] ].
Qed.

Lemma run_callback_keeps_timer (c : callback) (st : Monitor) (t : Timer) :
  In t (timers (win st)) -> In t (timers (win (run_callback c st))).
Proof.
  destruct (run_callback_timers c st) as (l & -> & _).
  intros H. apply in_or_app. now left.
Qed.

Lemma run_callback_new_timer (c : callback) (st : Monitor) (t : Timer) :
  In t (timers (win (run_callback c st))) ->
  In t (timers (win st)) \/ is_unsilence (cb t) = false.
Proof.
  destruct (run_callback_timers c st) as (l & -> & Hl).
  intros H. apply in_app_or in H. destruct H as [H|H]; [now left|right].
  rewrite Forall_forall in Hl. now apply Hl.
Qed.

Lemma run_all_cons (c : callback) (cs : list callback) (st : Monitor) :
  run_all (c :: cs) st = run_all cs (run_callback c st).
Proof. reflexivity. Qed.

Lemma fold_left_through_map {A B C : Type} (f : A -> C -> A) (g : B -> C)
    (l : list B) (a : A) :
  fold_left (fun s x => f s (g x)) l a = fold_left f (map g l) a.
Proof. revert a. induction l as [|x l IH]; intros a; cbn; [reflexivity|apply IH]. Qed.

Lemma step_ms_unfold (st : Monitor) :
  step_ms st
  = run_all (map cb (filter (is_due (now (win st) + 1)) (timers (win st))))
      (set_win
         (set_timers (filter (fun x => negb (is_due (now (win st) + 1) x)) (timers (win st)))
            (set_now (now (win st) + 1)%Z (win st))) st).
Proof. unfold step_ms, run_all. cbv zeta. now rewrite <- fold_left_through_map. Qed.

Lemma animationFrame_unfold (st : Monitor) :
  animationFrame st
  = run_all (map Animate (rafQueue (win st)))
      (set_win (set_rafQueue [] (win st)) st).
Proof.
  unfold animationFrame, run_all. cbv zeta.
  now rewrite <- fold_left_through_map.
Qed.

Lemma run_all_frame (cs : list callback) (st : Monitor) :
  vitals (run_all cs st) = vitals st /\
  alarmEnabled (run_all cs st) = alarmEnabled st /\
  alarmActive (run_all cs st) = alarmActive st /\
  now (win (run_all cs st)) = now (win st).
Proof.
  revert st. induction cs as [|c cs IH]; intros st; [now repeat split|].
  rewrite run_all_cons. destruct (IH (run_callback c st)) as (-> & -> & -> & ->).
  apply run_callback_frame.
Qed.

Lemma run_all_silenced (cs : list callback) (st : Monitor) :
  alarmSilenced (run_all cs st)
  = alarmSilenced st && forallb (fun c => negb (is_unsilence c)) cs.
Proof.
  revert st. induction cs as [|c cs IH]; intros st.
  - cbn. now rewrite Bool.andb_true_r.
  - rewrite run_all_cons, IH, run_callback_silenced. cbn [forallb].
    now rewrite Bool.andb_assoc.
Qed.

Lemma run_all_keeps_timer (cs : list callback) (st : Monitor) (t : Timer) :
  In t (timers (win st)) -> In t (timers (win (run_all cs st))).
Proof.
  revert st. induction cs as [|c cs IH]; intros st H; [exact H|].
  rewrite run_all_cons. apply IH. now apply run_callback_keeps_timer.
Qed.

Lemma run_all_new_timer (cs : list callback) (st : Monitor) (t : Timer) :
  In t (timers (win (run_all cs st))) ->
  In t (timers (win st)) \/ is_unsilence (cb t) = false.
Proof.
  revert st. induction cs as [|c cs IH]; intros st H; [now left|].
  rewrite run_all_cons in H. apply IH in H. destruct H as [H|H]; [|now right].
  now apply run_callback_new_timer in H.
Qed.

(** What a millisecond leaves alone, and what it does to the clock. *)
Lemma step_ms_frame (st : Monitor) :
  vitals (step_ms st) = vitals st /\
  alarmEnabled (step_ms st) = alarmEnabled st /\
  alarmActive (step_ms st) = alarmActive st /\
  now (win (step_ms st)) = (now (win st) + 1)%Z.
Proof.
  rewrite step_ms_unfold.
  match goal with |- context [run_all ?cs ?s] =>
    destruct (run_all_frame cs s) as (-> & -> & -> & ->) end.
  now repeat split.
Qed.

Lemma elapse_succ (k : N) (st : Monitor) :
  elapse (N.succ k) st = step_ms (elapse k st).
Proof. unfold elapse. apply N.iter_succ. Qed.

Lemma elapse_frame (k : N) (st : Monitor) :
  vitals (elapse k st) = vitals st /\
  alarmEnabled (elapse k st) = alarmEnabled st /\
  alarmActive (elapse k st) = alarmActive st /\
  now (win (elapse k st)) = (now (win st) + Z.of_N k)%Z.
Proof.
  induction k as [|k IH] using N.peano_ind.
  - cbn. repeat split; trivial. lia.
  - rewrite elapse_succ.
    destruct (step_ms_frame (elapse k st)) as (-> & -> & -> & ->).
    destruct IH as (-> & -> & -> & ->). repeat split; trivial. lia.
Qed.

(** A pending timer stays pending as long as it is not due. *)
Lemma step_ms_keeps_timer (st : Monitor) (t : Timer) :
  In t (timers (win st)) -> (now (win st) + 1 < due t)%Z ->
  In t (timers (win (step_ms st))).
Proof.
  intros Hin Hdue. rewrite step_ms_unfold. apply run_all_keeps_timer. cbn.
  apply filter_In. split; [exact Hin|].
  unfold is_due. apply Bool.negb_true_iff, Z.leb_gt. exact Hdue.
Qed.

Lemma elapse_keeps_timer (k : N) (st : Monitor) (t : Timer) :
  In t (timers (win st)) -> (now (win st) + Z.of_N k < due t)%Z ->
  In t (timers (win (elapse k st))).
Proof.
  induction k as [|k IH] using N.peano_ind; intros Hin Hdue; [exact Hin|].
  rewrite elapse_succ. apply step_ms_keeps_timer.
  - apply IH; [exact Hin|lia].
  - destruct (elapse_frame k st) as (_ & _ & _ & ->). lia.
Qed.

(** The millisecond in which a silence expiry is due ends unsilenced. *)
Lemma step_ms_unsilences (st : Monitor) (t : Timer) :
  In t (timers (win st)) -> cb t = Unsilence -> due t = (now (win st) + 1)%Z ->
  alarmSilenced (step_ms st) = false.
Proof.
  intros Hin Hcb Hdue. rewrite step_ms_unfold, run_all_silenced.
  apply Bool.andb_false_iff. right.
  apply Bool.not_true_iff_false. intros Hall.
  rewrite forallb_forall in Hall.
  specialize (Hall Unsilence). cbn in Hall.
  assert (In Unsilence (map cb (filter (is_due (now (win st) + 1)) (timers (win st))))) as H.
  { rewrite <- Hcb. apply in_map, filter_In. split; [exact Hin|].
    unfold is_due. apply Z.leb_le. lia. }
  specialize (Hall H). discriminate Hall.
Qed.

(** A silence expiry pending for [k] more milliseconds: once they have
    passed the alarm is not silenced. *)
Lemma elapse_unsilences (k : N) (st : Monitor) (t : Timer) :
  In t (timers (win st)) -> cb t = Unsilence ->
  due t = (now (win st) + Z.of_N k)%Z -> (0 < k)%N ->
  alarmSilenced (elapse k st) = false.
Proof.
  intros Hin Hcb Hdue Hk.
  rewrite <- (N.succ_pred_pos k Hk), elapse_succ.
  apply step_ms_unsilences with (t := t); [|exact Hcb|].
  - apply elapse_keeps_timer; [exact Hin|lia].
  - destruct (elapse_frame (N.pred k) st) as (_ & _ & _ & ->). lia.
Qed.

(** ** The silence period *)

Lemma quiet_silenceAlarm (T : Z) (st : Monitor) :
  (T <= now (win st) + 120000)%Z ->
  (forall d : Z, In d (pending_unsilence st) -> (T <= d)%Z) ->
  Quiet T (silenceAlarm st).
Proof.
  intros HT Hpending. unfold Quiet. unfold_methods. cbn.
  repeat split; [exact HT|].
  intros t Hin Hu. apply in_app_or in Hin. destruct Hin as [Hin|[<-|[]]].
  - apply Hpending. unfold pending_unsilence.
    apply in_map, filter_In. now split.
  - cbn. lia.
Qed.

Lemma quiet_run_all (T : Z) (cs : list callback) (st : Monitor) :
  Quiet T st -> forallb (fun c => negb (is_unsilence c)) cs = true ->
  Quiet T (run_all cs st).
Proof.
  intros (Hs & Ha & Hn & Ht) Hcs. unfold Quiet.
  rewrite run_all_silenced, Hs, Hcs.
  destruct (run_all_frame cs st) as (_ & _ & -> & ->).
  repeat split; trivial.
  intros t Hin Hu. apply run_all_new_timer in Hin.
  destruct Hin as [Hin|Hin]; [now apply Ht|congruence].
Qed.

Lemma quiet_step_ms (T : Z) (st : Monitor) :
  Quiet T st -> (now (win st) + 1 < T)%Z -> Quiet T (step_ms st).
Proof.
  intros (Hs & Ha & Hn & Ht) Hlt. rewrite step_ms_unfold.
  apply quiet_run_all.
  - unfold Quiet. cbn. repeat split; trivial; [lia|].
    intros t Hin. apply filter_In in Hin. now apply Ht.
  - apply forallb_forall. intros c Hc.
    apply in_map_iff in Hc. destruct Hc as (t & <- & Hin).
    apply filter_In in Hin. destruct Hin as [Hin Hdue].
    unfold is_due in Hdue. apply Z.leb_le in Hdue.
    destruct (is_unsilence (cb t)) eqn:Hu; [|reflexivity].
    specialize (Ht t Hin Hu). lia.
Qed.

Lemma quiet_elapse (T : Z) (k : N) (st : Monitor) :
  Quiet T st -> (now (win st) + Z.of_N k < T)%Z -> Quiet T (elapse k st).
Proof.
  induction k as [|k IH] using N.peano_ind; intros Hq Hlt; [exact Hq|].
  rewrite elapse_succ. apply quiet_step_ms.
  - apply IH; [exact Hq|lia].
  - destruct (elapse_frame k st) as (_ & _ & _ & ->). lia.
Qed.

Lemma quiet_animationFrame (T : Z) (st : Monitor) :
  Quiet T st -> Quiet T (animationFrame st).
Proof.
  intros Hq. rewrite animationFrame_unfold. apply quiet_run_all.
  - exact Hq.
  - apply forallb_forall. intros c Hc.
    apply in_map_iff in Hc. now destruct Hc as (a & <- & _).
Qed.

Lemma checkAlarms_skipped (st : Monitor) :
  alarmEnabled st = false \/ alarmSilenced st = true -> checkAlarms st = st.
Proof.
  intros [H|H]; unfold checkAlarms; rewrite H; [reflexivity|].
  now rewrite Bool.orb_true_r.
Qed.

Lemma quiet_handle (T : Z) (c : command) (st : Monitor) :
  Quiet T st -> is_calm (Do c) = true -> Quiet T (handle c st).
Proof.
  intros (Hs & Ha & Hn & Ht) Hc. unfold Quiet.
  destruct c; try discriminate Hc; unfold handle.
  - unfold updateVital. rewrite checkAlarms_skipped by now right.
    now repeat split.
  - destruct checked; cbn; now repeat split.
  - unfold_methods. cbn. repeat split; trivial.
    intros t Hin Hu. apply in_app_or in Hin. destruct Hin as [Hin|[<-|[]]].
    + now apply Ht.
    + cbn. lia.
  - now repeat split.
  - now repeat split.
  - now repeat split.
  - now repeat split.
  - now repeat split.
  - unfold_methods. destruct (nibpMeasuring st); cbn; repeat split; trivial.
    intros t Hin Hu. apply in_app_or in Hin. destruct Hin as [Hin|[<-|[]]].
    + now apply Ht.
    + discriminate Hu.
  - unfold_methods. cbn. destruct (nibpTimer st); cbn; repeat split; trivial.
    intros t Hin. apply filter_In in Hin. now apply Ht.
  - now repeat split.
Qed.

Lemma win_triggerAlarm (alarms : list string) (st : Monitor) :
  win (triggerAlarm alarms st) = win st.
Proof. unfold triggerAlarm, createAlarmSound. cbn. split_ifs; reflexivity. Qed.

Lemma win_checkAlarms (st : Monitor) : win (checkAlarms st) = win st.
Proof.
  unfold checkAlarms. destruct (collect_alarms st) as [al ov].
  split_ifs; rewrite ?win_triggerAlarm; reflexivity.
Qed.

Lemma now_handle (c : command) (st : Monitor) :
  now (win (handle c st)) = now (win st).
Proof.
  destruct c; unfold handle, updateVital, testAlarm;
    rewrite ?win_checkAlarms, ?win_triggerAlarm;
    unfold_methods; cbn; split_ifs; reflexivity.
Qed.

Lemma now_animationFrame (st : Monitor) :
  now (win (animationFrame st)) = now (win st).
Proof.
  rewrite animationFrame_unfold.
  match goal with |- context [run_all ?cs ?s] =>
    destruct (run_all_frame cs s) as (_ & _ & _ & ->) end.
  reflexivity.
Qed.

Lemma now_run (es : list event) (st : Monitor) :
  now (win (run es st)) = (now (win st) + Z.of_N (waited es))%Z.
Proof.
  revert st. induction es as [|e es IH]; intros st; [cbn; lia|].
  change (run (e :: es) st) with (run es (react st e)). rewrite IH.
  destruct e as [c|ms|]; cbn [react waited fold_right].
  - rewrite now_handle. reflexivity.
  - destruct (elapse_frame ms st) as (_ & _ & _ & ->).
    fold (waited es). lia.
  - rewrite now_animationFrame. reflexivity.
Qed.

Lemma quiet_run (T : Z) (es : list event) (st : Monitor) :
  Quiet T st -> forallb is_calm es = true ->
  (now (win st) + Z.of_N (waited es) < T)%Z ->
  Quiet T (run es st).
Proof.
  revert st. induction es as [|e es IH]; intros st Hq Hcalm Hlt; [exact Hq|].
  change (run (e :: es) st) with (run es (react st e)).
  cbn [forallb] in Hcalm. apply andb_prop in Hcalm. destruct Hcalm as [He Hes].
  assert (waited (e :: es)
          = (match e with Wait ms => ms | _ => 0 end + waited es)%N) as Hw
    by (destruct e; reflexivity).
  rewrite Hw in Hlt.
  apply IH; [|exact Hes|].
  - destruct e as [c|ms|]; cbn [react].
    + now apply quiet_handle.
    + apply quiet_elapse; [exact Hq|lia].
    + now apply quiet_animationFrame.
  - destruct e as [c|ms|]; cbn [react].
    + rewrite now_handle. lia.
    + destruct (elapse_frame ms st) as (_ & _ & _ & ->). lia.
    + rewrite now_animationFrame. lia.
Qed.

Lemma pending_unsilence_In (t : Timer) (st : Monitor) :
  In t (timers (win st)) -> cb t = Unsilence -> In (due t) (pending_unsilence st).
Proof.
  intros Hin Hcb. unfold pending_unsilence. apply in_map, filter_In.
  split; [exact Hin|]. now rewrite Hcb.
Qed.

(** The expiry that [silenceAlarm] schedules. *)
Lemma silenceAlarm_timer (st : Monitor) :
  In (mkTimer (nextTimerId (win st)) (now (win st) + 120000) Unsilence)
     (timers (win (silenceAlarm st))).
Proof. unfold_methods. cbn. apply in_or_app. right. now left. Qed.

Lemma silenceAlarm_expires (st : Monitor) :
  alarmSilenced (elapse 120000 (silenceAlarm st)) = false.
Proof.
  apply elapse_unsilences
    with (t := mkTimer (nextTimerId (win st)) (now (win st) + 120000) Unsilence).
  - apply silenceAlarm_timer.
  - reflexivity.
  - reflexivity.
  - reflexivity.
Qed.

(** C2, as worded, fails.  Were a persisting breach unable to trigger the
    alarm again until 120000 ms have passed since [silenceAlarm], then in
    any state an evaluation of a heart rate of 45 less than 120000 ms after
    the call would leave the alarm inactive.  But when the alarm was
    silenced one minute before as well, the expiry of that earlier call
    clears [alarmSilenced] one minute after the later call, and the
    evaluation 60001 ms after it triggers the alarm. *)
Lemma silence_retrigger_counterexample :
  ~ (forall (st : Monitor) (d : N),
        (d < 120000)%N ->
        alarmActive (updateVital heartRate (of_Z 45) (elapse d (silenceAlarm st)))
        = false).
Proof.
  intros H.
  specialize (H (run [Do (UpdateVital heartRate (of_Z 45)); Do SilenceAlarm; Wait 60000]
                     fresh) 60001%N eq_refl).
  vm_compute in H. discriminate H.
Qed.

(** C2, amended: with alarms disabled or silenced [checkAlarms] returns the
    monitor unchanged.  Hence, when no earlier silence expiry is pending,
    [silenceAlarm] keeps the alarm silenced and inactive through every run
    of events shorter than 120000 ms that holds neither a reset nor the
    alarm test, whatever the vitals are, and an evaluation at its end
    changes nothing; in any state the same holds up to a clock value [T]
    that is at most 120000 ms away and not later than any pending expiry.
    Once 120000 ms have passed the alarm is no longer silenced, and an
    evaluation with a vital out of limits triggers it. *)
Theorem silence_suppresses_evaluation :
  (forall st : Monitor,
      alarmEnabled st = false \/ alarmSilenced st = true -> checkAlarms st = st) /\
  (forall (st : Monitor) (es : list event),
      pending_unsilence st = [] ->
      forallb is_calm es = true ->
      (waited es < 120000)%N ->
      let st' := run es (silenceAlarm st) in
      alarmSilenced st' = true /\ alarmActive st' = false /\ checkAlarms st' = st') /\
  (forall (st : Monitor) (es : list event) (T : Z),
      (T <= now (win st) + 120000)%Z ->
      (forall d : Z, In d (pending_unsilence st) -> (T <= d)%Z) ->
      forallb is_calm es = true ->
      (now (win st) + Z.of_N (waited es) < T)%Z ->
      let st' := run es (silenceAlarm st) in
      alarmSilenced st' = true /\ alarmActive st' = false /\ checkAlarms st' = st') /\
  (forall st : Monitor,
      let st' := elapse 120000 (silenceAlarm st) in
      alarmSilenced st' = false /\
      (forall v : vital,
          alarmEnabled st = true ->
          breach (get_vital (vitals st) v) (alarmLimits v) = true ->
          alarmActive (checkAlarms st') = true)).
Proof.
  assert (forall (st : Monitor) (es : list event) (T : Z),
             (T <= now (win st) + 120000)%Z ->
             (forall d : Z, In d (pending_unsilence st) -> (T <= d)%Z) ->
             forallb is_calm es = true ->
             (now (win st) + Z.of_N (waited es) < T)%Z ->
             let st' := run es (silenceAlarm st) in
             alarmSilenced st' = true /\ alarmActive st' = false /\
             checkAlarms st' = st') as Hupto.
  { intros st es T HT Hpending Hcalm Hw st'.
    assert (Quiet T st') as (Hs & Ha & _)
      by (apply quiet_run; [now apply quiet_silenceAlarm|exact Hcalm|exact Hw]).
    repeat split; trivial. apply checkAlarms_skipped. now right. }
  split; [exact checkAlarms_skipped|]. split; [|split; [exact Hupto|]].
  - intros st es Hnone Hcalm Hw.
    apply (Hupto st es (now (win st) + 120000)%Z); [lia| |exact Hcalm|lia].
    intros d Hd. rewrite Hnone in Hd. destruct Hd.
  - intros st st'. pose proof (silenceAlarm_expires st) as Hs.
    split; [exact Hs|]. intros v Hen Hb.
    destruct (elapse_frame 120000 (silenceAlarm st)) as (Hv & He & _).
    fold st' in Hv, He. rewrite checkAlarms_active.
    + apply existsb_exists. exists v. split; [apply vital_keys_complete|].
      rewrite Hv. exact Hb.
    + rewrite He. exact Hen.
    + exact Hs.
Qed.

(** A heart rate of 45 is alarming on a fresh monitor; the alarm is
    silenced, the breach is evaluated again after one minute, and close to
    one more minute passes. *)
Lemma silence_suppresses_evaluation_witness :
  let st := updateVital heartRate (of_Z 45) fresh in
  let es := [Wait 60000; Do (UpdateVital heartRate (of_Z 45)); Wait 59999] in
  (alarmEnabled st = false \/ alarmSilenced (silenceAlarm st) = true) /\
  pending_unsilence st = [] /\
  forallb is_calm es = true /\
  (waited es < 120000)%N /\
  alarmEnabled st = true /\
  breach (get_vital (vitals st) heartRate) (alarmLimits heartRate) = true /\
  (120000 <= now (win st) + 120000)%Z /\
  (now (win st) + Z.of_N (waited es) < 120000)%Z /\
  checkAlarms (silenceAlarm st) = silenceAlarm st /\
  alarmActive (run es (silenceAlarm st)) = false /\
  alarmSilenced (run es (silenceAlarm st)) = true /\
  alarmActive (checkAlarms (elapse 120000 (silenceAlarm st))) = true.
Proof.
  intros st es.
  destruct silence_suppresses_evaluation as (Hskip & Hquiet & Hupto & Hafter).
  assert (120000 <= now (win st) + 120000)%Z as HT by (vm_compute; discriminate).
  assert (now (win st) + Z.of_N (waited es) < 120000)%Z as Hw by reflexivity.
  split; [right; reflexivity|].
  split; [reflexivity|]. split; [reflexivity|]. split; [reflexivity|].
  split; [reflexivity|]. split; [reflexivity|].
  split; [exact HT|]. split; [exact Hw|].
  split; [apply Hskip; right; reflexivity|].
  split; [apply (Hquiet st es eq_refl eq_refl eq_refl)|].
  split.
  - apply (Hupto st es 120000%Z HT); [intros d []|reflexivity|exact Hw].
  - apply (Hafter st) with (v := heartRate); reflexivity.
Defined.

(** C3, as worded, fails.  Were the silence to last 120000 ms from the
    latest [silenceAlarm], it would hold for every [d < 120000] after the
    second of two calls one minute apart; but one minute after the second
    call the first timer has already cleared [alarmSilenced]. *)
Lemma silence_restarts_counterexample :
  ~ (forall d : N,
        (d < 120000)%N ->
        alarmSilenced
          (run [Do SilenceAlarm; Wait 60000; Do SilenceAlarm; Wait d] fresh) = true).
Proof.
  intros H. specialize (H 60000%N eq_refl).
  vm_compute in H. discriminate H.
Qed.

(** C3, amended: the timers stack.  When [silenceAlarm] is called again
    [d1] ms after an earlier call, with [0 < d1 < 120000], both expiries are
    pending; the earlier one is not cancelled and clears [alarmSilenced]
    120000 ms after the earlier call, that is [120000 - d1] ms after the
    latest one, while the later one is still pending, due 120000 ms after
    its own call. *)
Theorem silence_timers_stack (st : Monitor) (d1 : N) :
  (0 < d1)%N -> (d1 < 120000)%N ->
  let t0 := now (win st) in
  let st1 := run [Do SilenceAlarm; Wait d1; Do SilenceAlarm] st in
  let st2 := elapse (120000 - d1) st1 in
  alarmSilenced st1 = true /\
  In (t0 + 120000)%Z (pending_unsilence st1) /\
  In (t0 + Z.of_N d1 + 120000)%Z (pending_unsilence st1) /\
  now (win st2) = (t0 + 120000)%Z /\
  alarmSilenced st2 = false /\
  In (t0 + Z.of_N d1 + 120000)%Z (pending_unsilence st2).
Proof.
  intros Hpos Hlt t0 st1 st2.
  set (sA := silenceAlarm st).
  set (sB := elapse d1 sA).
  set (t1 := mkTimer (nextTimerId (win st)) (t0 + 120000) Unsilence).
  set (t2 := mkTimer (nextTimerId (win sB)) (now (win sB) + 120000) Unsilence).
  assert (st1 = silenceAlarm sB) as Hst1 by reflexivity.
  assert (now (win sB) = (t0 + Z.of_N d1)%Z) as HnowB
    by (destruct (elapse_frame d1 sA) as (_ & _ & _ & H); exact H).
  assert (now (win st1) = (t0 + Z.of_N d1)%Z) as Hnow1
    by (rewrite Hst1; exact HnowB).
  assert (In t1 (timers (win sB))) as Hin1B.
  { apply elapse_keeps_timer; [apply silenceAlarm_timer|].
    change (now (win sA)) with t0. cbn. lia. }
  assert (In t1 (timers (win st1))) as Hin1.
  { rewrite Hst1. unfold_methods. cbn. apply in_or_app. now left. }
  assert (In t2 (timers (win st1))) as Hin2
    by (rewrite Hst1; apply silenceAlarm_timer).
  assert (due t2 = (t0 + Z.of_N d1 + 120000)%Z) as Hdue2
    by (cbn; now rewrite HnowB).
  split; [now rewrite Hst1|].
  split; [exact (pending_unsilence_In t1 st1 Hin1 eq_refl)|].
  split; [rewrite <- Hdue2; exact (pending_unsilence_In t2 st1 Hin2 eq_refl)|].
  split.
  { destruct (elapse_frame (120000 - d1) st1) as (_ & _ & _ & H).
    fold st2 in H. rewrite H, Hnow1. lia. }
  split.
  - apply elapse_unsilences with (t := t1); [exact Hin1|reflexivity| |lia].
    rewrite Hnow1. unfold t1. cbn [due]. lia.
  - rewrite <- Hdue2. apply pending_unsilence_In; [|reflexivity].
    apply elapse_keeps_timer; [exact Hin2|]. rewrite Hdue2, Hnow1. lia.
Qed.

(** Two calls one minute apart on a fresh monitor. *)
Lemma silence_timers_stack_witness :
  (0 < 60000)%N /\ (60000 < 120000)%N /\
  alarmSilenced
    (elapse (120000 - 60000) (run [Do SilenceAlarm; Wait 60000; Do SilenceAlarm] fresh))
  = false.
Proof.
  split; [reflexivity|]. split; [reflexivity|].
  pose proof (silence_timers_stack fresh 60000 eq_refl eq_refl) as H.
  cbv zeta in H. destruct H as (_ & _ & _ & _ & H & _). exact H.
Defined.

(** ** The NIBP cycle *)

Lemma nibpMeasuring_triggerAlarm (alarms : list string) (st : Monitor) :
  nibpMeasuring (triggerAlarm alarms st) = nibpMeasuring st.
Proof. unfold triggerAlarm, createAlarmSound. cbn. split_ifs; reflexivity. Qed.

Lemma nibpMeasuring_checkAlarms (st : Monitor) :
  nibpMeasuring (checkAlarms st) = nibpMeasuring st.
Proof.
  unfold checkAlarms. destruct (collect_alarms st) as [al ov].
  split_ifs; rewrite ?nibpMeasuring_triggerAlarm; reflexivity.
Qed.

Lemma run_callback_measuring (c : callback) (st : Monitor) :
  nibpMeasuring st = true -> nibpMeasuring (run_callback c st) = true.
Proof.
  intros H.
  destruct c as [| | | |[|]]; unfold_methods; cbn; rewrite ?H; split_ifs; cbn; trivial.
Qed.

Lemma run_all_measuring (cs : list callback) (st : Monitor) :
  nibpMeasuring st = true -> nibpMeasuring (run_all cs st) = true.
Proof.
  revert st. induction cs as [|c cs IH]; intros st H; [exact H|].
  rewrite run_all_cons. apply IH. now apply run_callback_measuring.
Qed.

Lemma react_measuring (e : event) (st : Monitor) :
  is_not_stop e = true -> nibpMeasuring st = true ->
  nibpMeasuring (react st e) = true.
Proof.
  intros He H. destruct e as [c|ms|]; cbn [react].
  - destruct c; try discriminate He; unfold handle, updateVital, testAlarm;
      rewrite ?nibpMeasuring_checkAlarms, ?nibpMeasuring_triggerAlarm;
      unfold_methods; cbn; rewrite ?H; split_ifs; trivial.
  - unfold elapse. apply N.iter_invariant; [|exact H].
    intros s Hs. rewrite step_ms_unfold. now apply run_all_measuring.
  - rewrite animationFrame_unfold. now apply run_all_measuring.
Qed.

Lemma run_measuring (es : list event) (st : Monitor) :
  forallb is_not_stop es = true -> nibpMeasuring st = true ->
  nibpMeasuring (run es st) = true.
Proof.
  revert st. induction es as [|e es IH]; intros st Hes H; [exact H|].
  change (run (e :: es) st) with (run es (react st e)).
  cbn [forallb] in Hes. apply andb_prop in Hes. destruct Hes as [He Hes].
  apply IH; [exact Hes|]. now apply react_measuring.
Qed.

Lemma startNIBPMeasurement_sets_flag (st : Monitor) :
  nibpMeasuring (startNIBPMeasurement st) = true.
Proof.
  unfold_methods. destruct (nibpMeasuring st) eqn:H; [exact H|reflexivity].
Qed.

Lemma startNIBPMeasurement_noop (st : Monitor) :
  nibpMeasuring st = true -> startNIBPMeasurement st = st.
Proof. intros H. unfold startNIBPMeasurement. now rewrite H. Qed.

(** C6: [startNIBPMeasurement] leaves [nibpMeasuring] true and
    [stopNIBPMeasurement] leaves it false; no callback clears it, the one
    that writes 'Complete' included, and no event other than a stop does.
    So after a start, through every run of events without a stop, the flag
    is still true, and a further [startNIBPMeasurement], from the button or
    from the retrigger timer, returns the monitor unchanged. *)
Theorem nibpMeasuring_cleared_only_by_stop :
  (forall st : Monitor, nibpMeasuring (startNIBPMeasurement st) = true) /\
  (forall st : Monitor, nibpMeasuring (stopNIBPMeasurement st) = false) /\
  (forall st : Monitor,
      nibpMeasuring (run_callback NibpComplete st) = nibpMeasuring st) /\
  (forall (e : event) (st : Monitor),
      is_not_stop e = true -> nibpMeasuring st = true ->
      nibpMeasuring (react st e) = true) /\
  (forall (es : list event) (st : Monitor),
      forallb is_not_stop es = true ->
      let st' := run es (startNIBPMeasurement st) in
      nibpMeasuring st' = true /\
      handle StartNIBP st' = st' /\
      run_callback NibpRetrigger st' = st').
Proof.
  split; [exact startNIBPMeasurement_sets_flag|].
  split; [intros st; unfold_methods; cbn; now destruct (nibpTimer st)|].
  split; [intros st; unfold_methods; cbn; split_ifs; reflexivity|].
  split; [exact react_measuring|].
  intros es st Hes st'.
  assert (nibpMeasuring st' = true) as H
    by (apply run_measuring; [exact Hes|apply startNIBPMeasurement_sets_flag]).
  split; [exact H|].
  split; apply startNIBPMeasurement_noop; exact H.
Qed.

(** A cycle started on a fresh monitor runs to 'Complete'; five minutes
    later the retrigger timer has fired and the start button is pressed. *)
Lemma nibpMeasuring_cleared_only_by_stop_witness :
  let es := [Wait 5000; Wait 300000; Do StartNIBP] in
  is_not_stop (Wait 5000) = true /\
  forallb is_not_stop es = true /\
  nibpMeasuring (startNIBPMeasurement fresh) = true /\
  nibpMeasuring (react (startNIBPMeasurement fresh) (Wait 5000)) = true /\
  handle StartNIBP (run es (startNIBPMeasurement fresh))
  = run es (startNIBPMeasurement fresh).
Proof.
  intros es.
  destruct nibpMeasuring_cleared_only_by_stop as (Hstart & _ & _ & Hreact & Hrun).
  split; [reflexivity|]. split; [reflexivity|].
  split; [apply Hstart|].
  split; [apply Hreact; [reflexivity|apply Hstart]|].
  pose proof (Hrun es fresh eq_refl) as H.
  cbv zeta in H. destruct H as (_ & H & _). exact H.
Defined.

(** C4 (the code departs from it): [stopNIBPMeasurement] writes 'Stopped'
    and clears the flag at once, but the only timeout it clears is the one
    held in [nibpTimer], the retrigger.  A stop one second into a
    measurement leaves the 'Deflating...' transition pending: it fires at
    3000 ms and the 'Complete' one at 5000 ms, on a stopped cycle, and arms
    a retrigger. *)
Theorem stop_keeps_pending_transitions :
  (forall st : Monitor,
      textContent (nibpStatus (dom (stopNIBPMeasurement st))) = "Stopped"%string /\
      nibpMeasuring (stopNIBPMeasurement st) = false /\
      timers (win (stopNIBPMeasurement st))
      = match nibpTimer st with
        | Some id => filter (fun t => negb (Pos.eqb (tid t) id)) (timers (win st))
        | None => timers (win st)
        end) /\
  (let st := run [Do StartNIBP; Wait 1000; Do StopNIBP] fresh in
   textContent (nibpStatus (dom st)) = "Stopped"%string /\
   timers (win st) = [mkTimer 1 3000 NibpDeflate] /\
   textContent (nibpStatus (dom (elapse 1999 st))) = "Stopped"%string /\
   textContent (nibpStatus (dom (elapse 2000 st))) = "Deflating..."%string /\
   textContent (nibpStatus (dom (elapse 4000 st))) = "Complete"%string /\
   timers (win (elapse 4000 st)) = [mkTimer 3 305000 NibpRetrigger]).
Proof.
  split.
  - intros st. unfold_methods. cbn. destruct (nibpTimer st); now repeat split.
  - vm_compute. repeat split; reflexivity.
Qed.

(** C5 (the code departs from it): on a fresh monitor, whose interval is 5
    minutes, a measurement started at clock 0 shows 'Measuring...' until
    3000 ms, 'Deflating...' until 5000 ms, then 'Complete', and the
    retrigger is due at 305000 ms.  When it fires, [nibpMeasuring] is still
    true: the status stays 'Complete', the start button stays enabled and
    no transition is pending, so no new cycle has begun. *)
Theorem retrigger_starts_no_cycle :
  let st := handle StartNIBP fresh in
  nibpInterval fresh = of_Z 5 /\
  now (win st) = 0%Z /\
  textContent (nibpStatus (dom st)) = "Measuring..."%string /\
  textContent (nibpStatus (dom (elapse 2999 st))) = "Measuring..."%string /\
  textContent (nibpStatus (dom (elapse 3000 st))) = "Deflating..."%string /\
  textContent (nibpStatus (dom (elapse 4999 st))) = "Deflating..."%string /\
  textContent (nibpStatus (dom (elapse 5000 st))) = "Complete"%string /\
  timers (win (elapse 5000 st)) = [mkTimer 3 (5000 + 300000) NibpRetrigger] /\
  timers (win (elapse 304999 st)) = [mkTimer 3 (5000 + 300000) NibpRetrigger] /\
  now (win (elapse 305000 st)) = (5000 + 300000)%Z /\
  textContent (nibpStatus (dom (elapse 305000 st))) = "Complete"%string /\
  nibpMeasuring (elapse 305000 st) = true /\
  startBtnDisabled (dom (elapse 305000 st)) = false /\
  timers (win (elapse 305000 st)) = [].
Proof. vm_compute. repeat split; reflexivity. Qed.

(** ** Waveforms *)

Module WaveformFacts.

Import Waveform.
Local Open Scope R_scope.

Lemma normal_beat_by_windows (phase : R) :
  0 <= phase -> normal_beat phase = nsr_by_windows phase.
Proof.
  intros H. unfold normal_beat, nsr_by_windows, in_window.
  repeat match goal with
    | |- context [Rlt_dec ?a ?b] => destruct (Rlt_dec a b)
    | |- context [Rle_dec ?a ?b] => destruct (Rle_dec a b)
    end; try reflexivity; lra.
Qed.

Lemma sin_half_turn : sin (0.05 * PI * 10) = 1.
Proof. replace (0.05 * PI * 10) with (PI / 2) by lra. exact sin_PI2. Qed.

(** C7: for rhythm NSR no random number is drawn and [time] is not read:
    for a phase in [[0, 1)] the amplitude is the piecewise formula of the
    specification, hence 0 from 0.3 on, and at phase 0.05 it is 0.2
    whatever [t] is. *)
Theorem nsr_amplitude_is_piecewise (random : nat -> R) (t : R) (i : nat) :
  (forall phase : R,
      0 <= phase < 1 ->
      generateArrhythmiaECG "NSR" phase t random i = (nsr_by_windows phase, i) /\
      (0.3 <= phase -> generateArrhythmiaECG "NSR" phase t random i = (0, i))) /\
  generateArrhythmiaECG "NSR" 0.05 t random i = (0.2, i).
Proof.
  split.
  - intros phase [H0 H1].
    change (generateArrhythmiaECG "NSR" phase t random i) with (normal_beat phase, i).
    split.
    + now rewrite normal_beat_by_windows.
    + intros H3. f_equal. unfold normal_beat.
      repeat match goal with
        | |- context [Rlt_dec ?a ?b] => destruct (Rlt_dec a b)
        end; try reflexivity; lra.
  - change (generateArrhythmiaECG "NSR" 0.05 t random i) with (normal_beat 0.05, i).
    f_equal. unfold normal_beat.
    destruct (Rlt_dec 0.05 0.1); [|lra].
    rewrite sin_half_turn. lra.
Qed.

(** Phases 0.05 and 0.5 at time 7, after three draws. *)
Lemma nsr_amplitude_is_piecewise_witness :
  0 <= 0.5 < 1 /\ 0.3 <= 0.5 /\
  generateArrhythmiaECG "NSR" 0.5 7 no_noise 3%nat = (0, 3%nat).
Proof.
  assert (0 <= 0.5 < 1) as Hphase by lra.
  assert (0.3 <= 0.5) as Hlate by lra.
  split; [exact Hphase|]. split; [exact Hlate|].
  destruct (nsr_amplitude_is_piecewise no_noise 7 3%nat) as [H _].
  destruct (H 0.5 Hphase) as [_ H0]. exact (H0 Hlate).
Defined.

(** C8, as worded, fails at phase 0.05 with the draw 0.5: the code yields
    [sin (0.05 * PI * 10) * 0.1 = 0.1], the claim's formula 0.2. *)
Lemma af_p_wave_counterexample :
  fst (generateArrhythmiaECG "AF" 0.05 0 no_noise 0%nat)
  <> af_as_claimed (no_noise 0%nat) 0.05.
Proof.
  change (fst (generateArrhythmiaECG "AF" 0.05 0 no_noise 0%nat))
    with (if Rlt_dec 0.05 0.1
          then sin (0.05 * PI * 10) * (0.1 + (no_noise 0%nat - 0.5) * 0.3)
          else if Rlt_dec 0.05 0.15 then sin ((0.05 - 0.1) * PI * 20) * 1.0
          else if Rlt_dec 0.05 0.3 then sin ((0.05 - 0.15) * PI * 6.67) * 0.3
          else 0).
  unfold af_as_claimed, in_window, no_noise.
  destruct (Rlt_dec 0.05 0.1); [|lra].
  destruct (Rle_dec 0 0.05); [|lra].
  rewrite sin_half_turn. lra.
Qed.

(** C8, amended: for rhythm AF one number [u] is drawn per sample; for a
    phase in [[0, 1)] the amplitude in the P-wave window [[0, 0.1)] is
    [sin (phase * PI * 10) * (0.1 + (u - 0.5) * 0.3)], the scale being 0.1,
    and from 0.1 on it is the NSR amplitude. *)
Theorem af_amplitude_is_piecewise (random : nat -> R) (phase t : R) (i : nat) :
  0 <= phase < 1 ->
  generateArrhythmiaECG "AF" phase t random i
  = (af_by_windows (random i) phase, S i) /\
  (phase < 0.1 ->
   fst (generateArrhythmiaECG "AF" phase t random i)
   = sin (phase * PI * 10) * (0.1 + (random i - 0.5) * 0.3)) /\
  (0.1 <= phase ->
   fst (generateArrhythmiaECG "AF" phase t random i)
   = fst (generateArrhythmiaECG "NSR" phase t random i)).
Proof.
  intros [H0 H1].
  change (generateArrhythmiaECG "AF" phase t random i)
    with (if Rlt_dec phase 0.1
          then sin (phase * PI * 10) * (0.1 + (random i - 0.5) * 0.3)
          else if Rlt_dec phase 0.15 then sin ((phase - 0.1) * PI * 20) * 1.0
          else if Rlt_dec phase 0.3 then sin ((phase - 0.15) * PI * 6.67) * 0.3
          else 0, S i).
  change (generateArrhythmiaECG "NSR" phase t random i) with (normal_beat phase, i).
  cbn [fst]. unfold af_by_windows, nsr_by_windows, normal_beat, in_window.
  repeat match goal with
    | |- context [Rlt_dec ?a ?b] => destruct (Rlt_dec a b)
    | |- context [Rle_dec ?a ?b] => destruct (Rle_dec a b)
    end; repeat split; intros; try reflexivity; lra.
Qed.

(** Phase 0.05 at time 0 with the draw 0.5. *)
Lemma af_amplitude_is_piecewise_witness :
  0 <= 0.05 < 1 /\ 0.05 < 0.1 /\
  fst (generateArrhythmiaECG "AF" 0.05 0 no_noise 0%nat)
  = sin (0.05 * PI * 10) * (0.1 + (no_noise 0%nat - 0.5) * 0.3).
Proof.
  assert (0 <= 0.05 < 1) as Hphase by lra.
  assert (0.05 < 0.1) as Hp by lra.
  split; [exact Hphase|]. split; [exact Hp|].
  destruct (af_amplitude_is_piecewise no_noise 0.05 0 0%nat Hphase) as (_ & H & _).
  exact (H Hp).
Defined.

(** *** Frames of a fresh monitor *)

Lemma rem1_small (x : R) : 0 <= x < 1 -> rem1 x = x.
Proof.
  intros H. unfold rem1. destruct (Rle_dec 0 x) as [_|Hn]; [|lra].
  destruct (Int_part_frac_part_spec x 0 x H) as [_ Hf]; [lra|].
  now symmetry.
Qed.

Lemma for_columns_first (body : nat -> Rand R) (from n : nat)
    (random : nat -> R) (i : nat) :
  hd 0 (fst (for_columns body from (S n) random i)) = fst (body from random i).
Proof.
  cbn [for_columns]. unfold bind, ret.
  destruct (body from random i) as [a j].
  destruct (for_columns body (S from) n random j) as [rest k].
  reflexivity.
Qed.

Lemma first_column (time : R) (w : nat) : time + INR 0 / INR (S w) * 2 = time.
Proof. change (INR 0) with 0. unfold Rdiv. ring. Qed.

(** Without noise, the ECG sample of a fresh monitor is the normal beat at
    the column's phase. *)
Lemma ecg_sample_fresh (time : R) (width x i : nat) :
  fst (ecg_sample fresh_signal time width x no_noise i)
  = normal_beat (rem1 ((time + INR x / INR width * 2) * 72 / 60)).
Proof.
  unfold ecg_sample.
  change (generateArrhythmiaECG (sig_rhythm fresh_signal)) with
    (fun beatPhase (_ : R) => @ret R (normal_beat beatPhase)).
  cbv [bind ret Math_random addArtifacts fresh_signal sig_heartRate
         sig_stElevation sig_artifacts motion poorContact muscleTremor
         baselineDrift no_noise fst].
  repeat match goal with
    | |- context [Rlt_dec ?a ?b] => destruct (Rlt_dec a b)
    | |- context [Rle_dec ?a ?b] => destruct (Rle_dec a b)
    end; lra.
Qed.

Lemma pleth_sample_fresh (time : R) (width x i : nat) :
  fst (pleth_sample fresh_signal time width x no_noise i)
  = (0.3 + 0.7 * sin (rem1 ((time + INR x / INR width * 2) * 72 / 60) * PI * 2))
    * (98 / 100).
Proof.
  cbv [pleth_sample bind ret Math_random fresh_signal sig_heartRate sig_spo2
         no_noise fst].
  lra.
Qed.

Lemma phase_at_0 (w : nat) :
  rem1 ((IZR 0 / 1000 + INR 0 / INR (S w) * 2) * 72 / 60) = 0.
Proof.
  rewrite first_column.
  replace (IZR 0 / 1000 * 72 / 60) with 0 by lra.
  apply rem1_small. lra.
Qed.

Lemma phase_at_100 (w : nat) :
  rem1 ((IZR 100 / 1000 + INR 0 / INR (S w) * 2) * 72 / 60) = 0.12.
Proof.
  rewrite first_column.
  replace (IZR 100 / 1000 * 72 / 60) with 0.12 by lra.
  apply rem1_small. lra.
Qed.

(** C9 (the code departs from it): a tick of a frozen monitor re-arms itself
    with a 100 ms timeout, but it draws from [Date.now()] like any other
    tick.  On a fresh monitor frozen at clock 0 the ticks at 0, 100 and 200
    ms sample the clock values 0, 100 and 200, and without noise the first
    column of the frame is 0 (ECG) and 0.294 (pleth) at 0 ms and larger at
    100 ms: the frames are not identical, time advances while frozen. *)
Theorem frozen_ticks_sample_the_clock :
  (forall st : Monitor,
      let frozen := set_isFrozen true st in
      ecgFrames (out (animateECG frozen))
      = now (win st) :: ecgFrames (out st) /\
      timers (win (animateECG frozen))
      = timers (win st)
          ++ [mkTimer (nextTimerId (win st)) (now (win st) + 100) (Animate AnimateECG)] /\
      plethFrames (out (animatePleth frozen))
      = now (win st) :: plethFrames (out st) /\
      timers (win (animatePleth frozen))
      = timers (win st)
          ++ [mkTimer (nextTimerId (win st)) (now (win st) + 100) (Animate AnimatePleth)]) /\
  (let st := run [Do ToggleFreeze; Paint; Wait 100; Wait 100] fresh in
   isFrozen st = true /\
   ecgFrames (out st) = [200; 100; 0; 0]%Z /\
   plethFrames (out st) = [200; 100; 0; 0]%Z /\
   rafQueue (win st) = []) /\
  signal_of (run [Do ToggleFreeze; Paint; Wait 100; Wait 100] fresh)
  = Some fresh_signal /\
  (forall w : nat,
      hd 0 (fst (ecg_frame fresh_signal (S w) 0 no_noise 0%nat)) = 0 /\
      0 < hd 0 (fst (ecg_frame fresh_signal (S w) 100 no_noise 0%nat)) /\
      hd 0 (fst (pleth_frame fresh_signal (S w) 0 no_noise 0%nat)) = 0.294 /\
      0.294 < hd 0 (fst (pleth_frame fresh_signal (S w) 100 no_noise 0%nat))).
Proof.
  split; [|split; [|split]].
  - intros st frozen. unfold frozen. unfold_methods. cbn. now repeat split.
  - vm_compute. repeat split; reflexivity.
  - change (signal_of (run [Do ToggleFreeze; Paint; Wait 100; Wait 100] fresh))
      with (Some (mkSignal "NSR" (IZR 72 / IZR 1) (IZR 98 / IZR 1) (IZR 0 / IZR 10)
                    (mkArtifacts false false false false))).
    unfold fresh_signal. do 2 f_equal; lra.
  - intros w. unfold ecg_frame, pleth_frame.
    rewrite !for_columns_first, !ecg_sample_fresh, !pleth_sample_fresh.
    rewrite phase_at_0, phase_at_100.
    assert (0 < PI) as Hpi by exact PI_RGT_0.
    assert (0 < sin ((0.12 - 0.1) * PI * 20)) as Hqrs
      by (apply sin_gt_0; lra).
    assert (0 < sin (0.12 * PI * 2)) as Hpleth
      by (apply sin_gt_0; lra).
    replace (0 * PI * 2) with 0 by lra. rewrite sin_0.
    unfold normal_beat.
    repeat match goal with
      | |- context [Rlt_dec ?a ?b] => destruct (Rlt_dec a b)
      end; try lra.
    replace (0 * PI * 10) with 0 by lra. rewrite sin_0.
    repeat split; lra.
Qed.

End WaveformFacts.

(** * Further properties *)

(** ** More on the alarm engine *)

Lemma frame_triggerAlarm (alarms : list string) (st : Monitor) :
  vitals (triggerAlarm alarms st) = vitals st /\
  alarmEnabled (triggerAlarm alarms st) = alarmEnabled st /\
  alarmSilenced (triggerAlarm alarms st) = alarmSilenced st /\
  nibpTimer (triggerAlarm alarms st) = nibpTimer st /\
  overlays (dom (triggerAlarm alarms st)) = overlays (dom st) /\
  alarmStatusActive (dom (triggerAlarm alarms st)) = true.
Proof.
  unfold triggerAlarm, createAlarmSound. cbn. split_ifs; now repeat split.
Qed.

Lemma frame_checkAlarms (st : Monitor) :
  vitals (checkAlarms st) = vitals st /\
  alarmEnabled (checkAlarms st) = alarmEnabled st /\
  alarmSilenced (checkAlarms st) = alarmSilenced st /\
  nibpTimer (checkAlarms st) = nibpTimer st.
Proof.
  unfold checkAlarms. destruct (collect_alarms st) as [al ov].
  split_ifs; try (now repeat split).
  destruct (frame_triggerAlarm al (set_dom (set_overlays ov (dom st)) st))
    as (-> & -> & -> & -> & _).
  now repeat split.
Qed.

Lemma get_set_vital (v w : vital) (x : num) (vs : Vitals) :
  get_vital (set_vital v x vs) w = if vital_eqb v w then x else get_vital vs w.
Proof. destruct v, w; reflexivity. Qed.

(** X1: a vital set through [updateVital] reads back as the value given,
    and every other vital keeps its value, whether or not the evaluation
    that follows raises the alarm. *)
Theorem updateVital_reads_back (v w : vital) (x : num) (st : Monitor) :
  get_vital (vitals (updateVital v x st)) w
  = if vital_eqb v w then x else get_vital (vitals st) w.
Proof.
  unfold updateVital.
  destruct (frame_checkAlarms (set_vitals (set_vital v x (vitals st)) st)) as (-> & _).
  apply get_set_vital.
Qed.

Lemma collect_alarms_overlays (st : Monitor) :
  snd (collect_alarms st)
  = mkOverlays
      (breach (get_vital (vitals st) heartRate) (alarmLimits heartRate))
      (breach (get_vital (vitals st) spo2) (alarmLimits spo2))
      (breach (get_vital (vitals st) respiratoryRate) (alarmLimits respiratoryRate))
      (breach (get_vital (vitals st) diastolicBP) (alarmLimits diastolicBP))
      (breach (get_vital (vitals st) temperature) (alarmLimits temperature)).
Proof.
  unfold collect_alarms, vital_keys. cbn [fold_left]. unfold check_vital.
  destruct (breach (get_vital (vitals st) heartRate) (alarmLimits heartRate)),
    (breach (get_vital (vitals st) spo2) (alarmLimits spo2)),
    (breach (get_vital (vitals st) respiratoryRate) (alarmLimits respiratoryRate)),
    (breach (get_vital (vitals st) systolicBP) (alarmLimits systolicBP)),
    (breach (get_vital (vitals st) diastolicBP) (alarmLimits diastolicBP)),
    (breach (get_vital (vitals st) temperature) (alarmLimits temperature));
    reflexivity.
Qed.

Lemma overlays_checkAlarms (st : Monitor) :
  alarmEnabled st = true -> alarmSilenced st = false ->
  overlays (dom (checkAlarms st))
  = mkOverlays
      (breach (get_vital (vitals st) heartRate) (alarmLimits heartRate))
      (breach (get_vital (vitals st) spo2) (alarmLimits spo2))
      (breach (get_vital (vitals st) respiratoryRate) (alarmLimits respiratoryRate))
      (breach (get_vital (vitals st) diastolicBP) (alarmLimits diastolicBP))
      (breach (get_vital (vitals st) temperature) (alarmLimits temperature)).
Proof.
  intros Hen Hsil.
  pose proof (collect_alarms_overlays st) as Hsnd.
  pose proof (collect_alarms_spec st) as Hfst.
  unfold checkAlarms. rewrite Hen, Hsil. cbn [negb orb].
  destruct (collect_alarms st) as [al ov]. cbn [fst snd] in Hfst, Hsnd.
  rewrite Hfst, length_map, filter_nonempty.
  destruct (existsb _ vital_keys) eqn:Hany.
  - destruct (frame_triggerAlarm
                (map (fun v => alarm_text v (get_vital (vitals st) v) (alarmLimits v))
                   (filter (fun v => breach (get_vital (vitals st) v) (alarmLimits v))
                      vital_keys))
                (set_dom (set_overlays ov (dom st)) st)) as (_ & _ & _ & _ & -> & _).
    exact Hsnd.
  - transitivity no_overlays; [reflexivity|]. unfold no_overlays.
    assert (forall v, breach (get_vital (vitals st) v) (alarmLimits v) = false) as Hnone.
    { intros v.
      destruct (breach (get_vital (vitals st) v) (alarmLimits v)) eqn:Hb;
        [|reflexivity].
      rewrite <- Hany. symmetry. apply existsb_exists. exists v.
      split; [apply vital_keys_complete|exact Hb]. }
    now rewrite !Hnone.
Qed.

(** X2: when evaluation runs, each overlay ends up lit exactly when its
    vital is out of limits, except the shared blood-pressure overlay, which
    follows the diastolic pressure alone: the systolic pressure is checked
    first and the diastolic check then overwrites the class, so a systolic
    breach by itself is reported in the message but lights no overlay. *)
Theorem checkAlarms_overlays (st : Monitor) :
  alarmEnabled st = true -> alarmSilenced st = false ->
  let out_of_limits v := breach (get_vital (vitals st) v) (alarmLimits v) in
  overlays (dom (checkAlarms st))
  = mkOverlays (out_of_limits heartRate) (out_of_limits spo2)
      (out_of_limits respiratoryRate) (out_of_limits diastolicBP)
      (out_of_limits temperature) /\
  (out_of_limits systolicBP = true -> out_of_limits diastolicBP = false ->
   alarmActive (checkAlarms st) = true /\
   bp_overlay (overlays (dom (checkAlarms st))) = false).
Proof.
  intros Hen Hsil out_of_limits.
  pose proof (overlays_checkAlarms st Hen Hsil) as Hov.
  split; [exact Hov|].
  intros Hsys Hdia. split.
  - rewrite checkAlarms_active by assumption.
    apply existsb_exists. exists systolicBP.
    split; [apply vital_keys_complete|exact Hsys].
  - rewrite Hov. exact Hdia.
Qed.

(** A systolic pressure of 180 with every other vital at its default. *)
Lemma checkAlarms_overlays_witness :
  let st := set_vitals (set_vital systolicBP (of_Z 180) (vitals fresh)) fresh in
  alarmEnabled st = true /\ alarmSilenced st = false /\
  breach (get_vital (vitals st) systolicBP) (alarmLimits systolicBP) = true /\
  breach (get_vital (vitals st) diastolicBP) (alarmLimits diastolicBP) = false /\
  alarmActive (checkAlarms st) = true /\
  bp_overlay (overlays (dom (checkAlarms st))) = false.
Proof.
  intros st.
  pose proof (checkAlarms_overlays st eq_refl eq_refl) as H.
  cbv zeta in H. destruct H as [_ H].
  split; [reflexivity|]. split; [reflexivity|].
  split; [reflexivity|]. split; [reflexivity|].
  exact (H eq_refl eq_refl).
Defined.

(** X3: an evaluation that finds a vital out of limits builds one more
    alarm tone when audio is enabled and an audio context exists, every
    time it runs; an evaluation that finds none, or that is skipped, builds
    no tone. *)
Theorem checkAlarms_tones (st : Monitor) :
  alarmSounds (out (checkAlarms st))
  = if negb (alarmEnabled st) || alarmSilenced st then alarmSounds (out st)
    else if existsb (fun v => breach (get_vital (vitals st) v) (alarmLimits v)) vital_keys
              && (audioEnabled st && audioContext st)
         then S (alarmSounds (out st))
         else alarmSounds (out st).
Proof.
  pose proof (collect_alarms_spec st) as Hfst.
  unfold checkAlarms.
  destruct (negb (alarmEnabled st) || alarmSilenced st); [reflexivity|].
  destruct (collect_alarms st) as [al ov]. cbn [fst] in Hfst.
  rewrite Hfst, length_map, filter_nonempty. unfold breach.
  destruct (existsb _ vital_keys); [|reflexivity].
  unfold triggerAlarm, createAlarmSound. cbn.
  destruct (audioEnabled st), (audioContext st); reflexivity.
Qed.

(** X4: a reading that failed to parse never alarms.  When evaluation runs
    and every other vital is within its limits, setting a vital to [NaN]
    leaves the alarm inactive and every overlay dark, however far out of
    limits that vital was before. *)
Theorem nan_reading_never_alarms (v : vital) (st : Monitor) :
  alarmEnabled st = true -> alarmSilenced st = false ->
  (forall w : vital,
      vital_eqb v w = false ->
      breach (get_vital (vitals st) w) (alarmLimits w) = false) ->
  alarmActive (updateVital v NaN st) = false /\
  overlays (dom (updateVital v NaN st)) = no_overlays.
Proof.
  intros Hen Hsil Hothers.
  set (st1 := set_vitals (set_vital v NaN (vitals st)) st).
  assert (forall w, breach (get_vital (vitals st1) w) (alarmLimits w) = false) as Hnone.
  { intros w. unfold st1. cbn [vitals set_vitals]. rewrite get_set_vital.
    destruct (vital_eqb v w) eqn:Hvw; [|now apply Hothers].
    unfold breach, gtb, ltb. now destruct (high (alarmLimits w)). }
  unfold updateVital. fold st1. split.
  - rewrite checkAlarms_active by assumption.
    apply Bool.not_true_iff_false. intros H.
    apply existsb_exists in H. destruct H as (w & _ & Hw).
    rewrite Hnone in Hw. discriminate Hw.
  - rewrite (overlays_checkAlarms st1 Hen Hsil). now rewrite !Hnone.
Qed.

(** A heart rate of 45 replaced by an unparsable reading. *)
Lemma nan_reading_never_alarms_witness :
  let st := updateVital heartRate (of_Z 45) fresh in
  alarmEnabled st = true /\ alarmSilenced st = false /\
  alarmActive st = true /\
  alarmActive (updateVital heartRate NaN st) = false.
Proof.
  intros st.
  split; [reflexivity|]. split; [reflexivity|]. split; [reflexivity|].
  refine (proj1 (nan_reading_never_alarms heartRate st eq_refl eq_refl _)).
  intros w Hw. destruct w; try reflexivity. discriminate Hw.
Defined.

Lemma run_callback_alarm_dom (c : callback) (st : Monitor) :
  alarmStatusActive (dom (run_callback c st)) = alarmStatusActive (dom st) /\
  overlays (dom (run_callback c st)) = overlays (dom st) /\
  alarmMessage (dom (run_callback c st)) = alarmMessage (dom st).
Proof. by_cases_on c; repeat split; reflexivity. Qed.

Lemma consistent_run_callback (c : callback) (st : Monitor) :
  AlarmConsistent st -> AlarmConsistent (run_callback c st).
Proof.
  unfold AlarmConsistent.
  destruct (run_callback_alarm_dom c st) as (-> & -> & _).
  destruct (run_callback_frame c st) as (_ & _ & -> & _).
  trivial.
Qed.

Lemma consistent_run_all (cs : list callback) (st : Monitor) :
  AlarmConsistent st -> AlarmConsistent (run_all cs st).
Proof.
  revert st. induction cs as [|c cs IH]; intros st H; [exact H|].
  rewrite run_all_cons. apply IH. now apply consistent_run_callback.
Qed.

Lemma consistent_checkAlarms (st : Monitor) :
  AlarmConsistent st -> AlarmConsistent (checkAlarms st).
Proof.
  intros H. unfold checkAlarms.
  destruct (negb (alarmEnabled st) || alarmSilenced st); [exact H|].
  destruct (collect_alarms st) as [al ov].
  destruct (0 <? Datatypes.length al)%nat.
  - unfold AlarmConsistent. rewrite alarmActive_triggerAlarm.
    destruct (frame_triggerAlarm al (set_dom (set_overlays ov (dom st)) st))
      as (_ & _ & _ & _ & _ & ->).
    split; [reflexivity|discriminate].
  - unfold AlarmConsistent, clearAlarms. cbn. now split.
Qed.

Lemma consistent_handle (c : command) (st : Monitor) :
  AlarmConsistent st -> AlarmConsistent (handle c st).
Proof.
  intros H. destruct c; unfold handle.
  - unfold updateVital. apply consistent_checkAlarms. exact H.
  - destruct checked; cbn; [exact H|]. unfold AlarmConsistent. cbn. now split.
  - unfold testAlarm, AlarmConsistent. rewrite alarmActive_triggerAlarm.
    destruct (frame_triggerAlarm ["Test Alarm - All systems functioning"%string] st)
      as (_ & _ & _ & _ & _ & ->).
    split; [reflexivity|discriminate].
  - unfold AlarmConsistent. unfold_methods. cbn. now split.
  - unfold AlarmConsistent. unfold_methods. cbn. now split.
  - exact H.
  - exact H.
  - exact H.
  - exact H.
  - exact H.
  - unfold_methods. destruct (nibpMeasuring st); [exact H|exact H].
  - unfold_methods. cbn. destruct (nibpTimer st); exact H.
  - exact H.
Qed.

Lemma consistent_react (e : event) (st : Monitor) :
  AlarmConsistent st -> AlarmConsistent (react st e).
Proof.
  intros H. destruct e as [c|ms|]; cbn [react].
  - now apply consistent_handle.
  - unfold elapse. apply N.iter_invariant; [|exact H].
    intros s Hs. rewrite step_ms_unfold. now apply consistent_run_all.
  - rewrite animationFrame_unfold. now apply consistent_run_all.
Qed.

(** X5: the alarm banner and the flag never disagree.  On a page whose
    banner and overlays start dark, after any events whatsoever the
    banner shows exactly when [alarmActive] holds, and no overlay is lit
    while the alarm is inactive; every single event keeps this. *)
Theorem alarm_display_stays_consistent :
  (forall (e : event) (st : Monitor),
      AlarmConsistent st -> AlarmConsistent (react st e)) /\
  (forall (d : Dom) (webAudio : bool) (t0 : Z) (es : list event),
      alarmStatusActive d = false -> overlays d = no_overlays ->
      let st := run es (new_monitor d webAudio t0) in
      alarmStatusActive (dom st) = alarmActive st /\
      (alarmActive st = false -> overlays (dom st) = no_overlays)).
Proof.
  split; [exact consistent_react|].
  intros d webAudio t0 es Hbanner Hov st.
  assert (AlarmConsistent (new_monitor d webAudio t0)) as H0.
  { unfold AlarmConsistent. destruct webAudio; cbn; now split. }
  unfold st. clear st. revert H0. generalize (new_monitor d webAudio t0).
  induction es as [|e es IH]; intros s Hs; [exact Hs|].
  change (run (e :: es) s) with (run es (react s e)).
  apply IH. now apply consistent_react.
Qed.

(** A breach, the alarm test, a silence and two minutes on a fresh
    monitor. *)
Lemma alarm_display_stays_consistent_witness :
  let es := [Do (UpdateVital spo2 (of_Z 80)); Do TestAlarm; Do SilenceAlarm; Wait 120000] in
  alarmStatusActive blank_dom = false /\ overlays blank_dom = no_overlays /\
  AlarmConsistent fresh /\
  AlarmConsistent (react fresh (Do (UpdateVital spo2 (of_Z 80)))) /\
  alarmStatusActive (dom (run es fresh)) = alarmActive (run es fresh).
Proof.
  intros es.
  destruct alarm_display_stays_consistent as [Hstep Hrun].
  assert (AlarmConsistent fresh) as H0 by (split; [reflexivity|reflexivity]).
  split; [reflexivity|]. split; [reflexivity|]. split; [exact H0|].
  split; [exact (Hstep _ fresh H0)|].
  pose proof (Hrun blank_dom true 0%Z es eq_refl eq_refl) as H.
  cbv zeta in H. exact (proj1 H).
Defined.

(** X6: with alarms disabled nothing but the alarm test activates the
    alarm.  Unchecking the box clears the alarm, and through every run of
    events that holds neither the alarm test nor a re-enabling, the alarm
    stays inactive and alarms stay disabled, whatever the vitals do. *)
Theorem disabled_alarms_stay_inactive (st : Monitor) (es : list event) :
  forallb keeps_disabled es = true ->
  let st' := run es (handle (SetAlarmEnabled false) st) in
  alarmEnabled st' = false /\ alarmActive st' = false.
Proof.
  intros Hes st'. unfold st'. clear st'.
  assert (alarmEnabled (handle (SetAlarmEnabled false) st) = false /\
          alarmActive (handle (SetAlarmEnabled false) st) = false) as H0
    by (cbn; now split).
  revert H0. generalize (handle (SetAlarmEnabled false) st).
  induction es as [|e es IH]; intros s Hs; [exact Hs|].
  change (run (e :: es) s) with (run es (react s e)).
  cbn [forallb] in Hes. apply andb_prop in Hes. destruct Hes as [He Hes].
  apply (IH Hes). destruct Hs as [Hen Hact].
  destruct e as [c|ms|]; cbn [react].
  - destruct c; try discriminate He; unfold handle.
    + unfold updateVital. rewrite checkAlarms_skipped by now left. now split.
    + destruct checked; [discriminate He|]. cbn. now split.
    + unfold_methods. cbn. now split.
    + unfold_methods. cbn. now split.
    + now split.
    + now split.
    + now split.
    + now split.
    + now split.
    + unfold_methods. destruct (nibpMeasuring s); now split.
    + unfold_methods. cbn. destruct (nibpTimer s); now split.
    + now split.
  - destruct (elapse_frame ms s) as (_ & -> & -> & _). now split.
  - rewrite animationFrame_unfold.
    match goal with |- context [run_all ?cs ?x] =>
      destruct (run_all_frame cs x) as (_ & -> & -> & _) end.
    now split.
Qed.

(** Alarms disabled on an alarming monitor, then a worse reading and an
    hour of waiting. *)
Lemma disabled_alarms_stay_inactive_witness :
  let st := updateVital heartRate (of_Z 45) fresh in
  let es := [Do (UpdateVital heartRate (of_Z 30)); Wait 3600000; Do ResetAlarms] in
  forallb keeps_disabled es = true /\
  alarmActive st = true /\
  alarmActive (run es (handle (SetAlarmEnabled false) st)) = false.
Proof.
  intros st es.
  split; [reflexivity|]. split; [reflexivity|].
  pose proof (disabled_alarms_stay_inactive st es eq_refl) as H.
  cbv zeta in H. exact (proj2 H).
Defined.

(** X7: [resetAlarms] ends a silence at once and clears the alarm without
    evaluating the vitals: the alarm is inactive right after it even if a
    vital is out of limits, the timer queue is untouched (a pending silence
    expiry stays pending), and the next evaluation raises the alarm again
    when alarms are enabled and a vital is out of limits. *)
Theorem resetAlarms_resumes_evaluation (st : Monitor) :
  alarmSilenced (resetAlarms st) = false /\
  alarmActive (resetAlarms st) = false /\
  win (resetAlarms st) = win st /\
  vitals (resetAlarms st) = vitals st /\
  (forall v : vital,
      alarmEnabled st = true ->
      breach (get_vital (vitals st) v) (alarmLimits v) = true ->
      alarmActive (checkAlarms (resetAlarms st)) = true).
Proof.
  repeat split.
  intros v Hen Hb. rewrite checkAlarms_active; [|exact Hen|reflexivity].
  apply existsb_exists. exists v. split; [apply vital_keys_complete|exact Hb].
Qed.

(** A silenced breach, reset after one minute. *)
Lemma resetAlarms_resumes_evaluation_witness :
  let st := run [Do (UpdateVital heartRate (of_Z 45)); Do SilenceAlarm; Wait 60000] fresh in
  alarmEnabled st = true /\
  breach (get_vital (vitals st) heartRate) (alarmLimits heartRate) = true /\
  alarmSilenced st = true /\
  pending_unsilence (resetAlarms st) = [120000%Z] /\
  alarmActive (checkAlarms (resetAlarms st)) = true.
Proof.
  intros st.
  assert (alarmEnabled st = true) as Hen by (vm_compute; reflexivity).
  assert (breach (get_vital (vitals st) heartRate) (alarmLimits heartRate) = true)
    as Hb by (vm_compute; reflexivity).
  split; [exact Hen|]. split; [exact Hb|].
  split; [vm_compute; reflexivity|]. split; [vm_compute; reflexivity|].
  destruct (resetAlarms_resumes_evaluation st) as (_ & _ & _ & _ & H).
  exact (H heartRate Hen Hb).
Defined.

(** ** The timer queue *)

(** Removing timeouts keeps the ids distinct. *)
Lemma distinct_ids_filter (keep : Timer -> bool) (ts : list Timer) :
  NoDup (map tid ts) -> NoDup (map tid (filter keep ts)).
Proof.
  induction ts as [|t ts IH]; intros Hids; [exact Hids|].
  cbn [map] in Hids. apply NoDup_cons_iff in Hids. destruct Hids as [Hfresh Hrest].
  cbn [filter]. destruct (keep t); [|exact (IH Hrest)].
  cbn [map]. apply NoDup_cons; [|exact (IH Hrest)].
  intros Hin. apply Hfresh. apply in_map_iff in Hin.
  destruct Hin as (u & Hu & Hin). apply filter_In in Hin.
  apply in_map_iff. exists u. split; [exact Hu|exact (proj1 Hin)].
Qed.

Lemma wf_append (st st' : Monitor) (d : Z) (c : callback) :
  WellFormed st ->
  timers (win st') = timers (win st) ++ [mkTimer (nextTimerId (win st)) d c] ->
  nextTimerId (win st') = Pos.succ (nextTimerId (win st)) ->
  nibpTimer st' = nibpTimer st \/
  (nibpTimer st' = Some (nextTimerId (win st)) /\ c = NibpRetrigger) ->
  WellFormed st'.
Proof.
  intros (Hnodup & Hbelow & Hnibp) Ht Hn Hid. unfold WellFormed.
  rewrite Ht, Hn. split; [|split].
  - rewrite map_app. apply NoDup_app; [exact Hnodup|repeat constructor; intros []|].
    intros a Ha [<-|[]]. apply in_map_iff in Ha. destruct Ha as (t & Htid & Hin).
    specialize (Hbelow t Hin). cbn in Htid. lia.
  - intros t Hin. apply in_app_or in Hin. destruct Hin as [Hin|[<-|[]]].
    + specialize (Hbelow t Hin). lia.
    + cbn. lia.
  - intros id Hsome. destruct Hid as [Hid|[Hid ->]].
    + rewrite Hid in Hsome. destruct (Hnibp id Hsome) as [Hlt Hcb].
      split; [lia|]. intros t Hin Htid.
      apply in_app_or in Hin. destruct Hin as [Hin|[<-|[]]]; [now apply Hcb|].
      cbn in Htid. lia.
    + rewrite Hid in Hsome. injection Hsome as <-. split; [lia|].
      intros t Hin Htid. apply in_app_or in Hin. destruct Hin as [Hin|[<-|[]]].
      * specialize (Hbelow t Hin). lia.
      * reflexivity.
Qed.

Lemma wf_filter (st st' : Monitor) (p : Timer -> bool) :
  WellFormed st ->
  timers (win st') = filter p (timers (win st)) ->
  nextTimerId (win st') = nextTimerId (win st) ->
  nibpTimer st' = nibpTimer st \/ nibpTimer st' = None ->
  WellFormed st'.
Proof.
  intros (Hnodup & Hbelow & Hnibp) Ht Hn Hid. unfold WellFormed.
  rewrite Ht, Hn. split; [|split].
  - now apply distinct_ids_filter.
  - intros t Hin. apply filter_In in Hin. now apply Hbelow.
  - intros id Hsome. destruct Hid as [Hid|Hid]; rewrite Hid in Hsome;
      [|discriminate Hsome].
    destruct (Hnibp id Hsome) as [Hlt Hcb]. split; [exact Hlt|].
    intros t Hin. apply filter_In in Hin. now apply Hcb.
Qed.

Lemma filter_all {A : Type} (l : list A) : filter (fun _ => true) l = l.
Proof. induction l as [|a l IH]; [reflexivity|]. cbn. now rewrite IH. Qed.

Lemma wf_same (st st' : Monitor) :
  WellFormed st ->
  timers (win st') = timers (win st) ->
  nextTimerId (win st') = nextTimerId (win st) ->
  nibpTimer st' = nibpTimer st ->
  WellFormed st'.
Proof.
  intros H Ht Hn Hid. apply (wf_filter st st' (fun _ => true) H); [|exact Hn|now left].
  now rewrite filter_all.
Qed.

Ltac wf_step H :=
  first
    [ exact H
    | apply (wf_same _ _ H); reflexivity
    | eapply (wf_append _ _ _ _ H);
      [reflexivity|reflexivity|first [left; reflexivity|right; split; reflexivity]] ].

Lemma wf_run_callback (c : callback) (st : Monitor) :
  WellFormed st -> WellFormed (run_callback c st).
Proof.
  intros H.
  destruct c as [| | | |[|]]; unfold_methods; cbv beta iota zeta;
    split_ifs; wf_step H.
Qed.

Lemma wf_run_all (cs : list callback) (st : Monitor) :
  WellFormed st -> WellFormed (run_all cs st).
Proof.
  revert st. induction cs as [|c cs IH]; intros st H; [exact H|].
  rewrite run_all_cons. apply IH. now apply wf_run_callback.
Qed.

Lemma wf_step_ms (st : Monitor) : WellFormed st -> WellFormed (step_ms st).
Proof.
  intros H. rewrite step_ms_unfold. apply wf_run_all.
  eapply (wf_filter _ _ _ H); [reflexivity|reflexivity|now left].
Qed.

Lemma wf_handle (c : command) (st : Monitor) :
  WellFormed st -> WellFormed (handle c st).
Proof.
  intros H. destruct c; unfold handle, updateVital, testAlarm.
  - apply (wf_same _ _ H); rewrite ?win_checkAlarms; try reflexivity.
    now destruct (frame_checkAlarms (set_vitals (set_vital v value (vitals st)) st))
      as (_ & _ & _ & ->).
  - destruct checked; cbn; wf_step H.
  - apply (wf_same _ _ H); rewrite ?win_triggerAlarm; try reflexivity.
    now destruct (frame_triggerAlarm ["Test Alarm - All systems functioning"%string] st)
      as (_ & _ & _ & -> & _).
  - unfold_methods; cbv beta iota zeta; wf_step H.
  - unfold_methods; wf_step H.
  - wf_step H.
  - wf_step H.
  - wf_step H.
  - wf_step H.
  - wf_step H.
  - unfold_methods; cbv beta iota zeta; split_ifs; wf_step H.
  - unfold stopNIBPMeasurement. cbv zeta.
    match goal with
    | |- context [match ?x with Some _ => _ | None => _ end] =>
        change x with (nibpTimer st)
    end.
    destruct (nibpTimer st) as [id|] eqn:Hid.
    + eapply (wf_filter _ _ _ H); [reflexivity|reflexivity|now right].
    + apply (wf_same _ _ H); reflexivity || exact Hid.
  - wf_step H.
Qed.

Lemma wf_react (e : event) (st : Monitor) :
  WellFormed st -> WellFormed (react st e).
Proof.
  intros H. destruct e as [c|ms|]; cbn [react].
  - now apply wf_handle.
  - unfold elapse. apply N.iter_invariant; [exact wf_step_ms|exact H].
  - rewrite animationFrame_unfold. apply wf_run_all. wf_step H.
Qed.

Lemma wf_run (es : list event) (st : Monitor) :
  WellFormed st -> WellFormed (run es st).
Proof.
  revert st. induction es as [|e es IH]; intros st H; [exact H|].
  change (run (e :: es) st) with (run es (react st e)).
  apply IH. now apply wf_react.
Qed.

Lemma wf_new_monitor (d : Dom) (webAudio : bool) (t0 : Z) :
  WellFormed (new_monitor d webAudio t0).
Proof.
  unfold WellFormed. destruct webAudio; cbn; (split; [constructor|]);
    (split; [intros t []|intros id Hid; discriminate Hid]).
Qed.

(** X8: the timer queue stays well formed.  In every state reached from a
    page load the pending timeouts have distinct ids, all below the next id
    to hand out, and [nibpTimer] never names a pending timeout other than a
    retrigger; every single event keeps this. *)
Theorem timer_queue_stays_well_formed :
  (forall (e : event) (st : Monitor), WellFormed st -> WellFormed (react st e)) /\
  (forall (d : Dom) (webAudio : bool) (t0 : Z) (es : list event),
      let st := run es (new_monitor d webAudio t0) in
      NoDup (map tid (timers (win st))) /\
      (forall t : Timer,
          In t (timers (win st)) -> (tid t < nextTimerId (win st))%positive) /\
      (forall (id : positive) (t : Timer),
          nibpTimer st = Some id -> In t (timers (win st)) -> tid t = id ->
          cb t = NibpRetrigger)).
Proof.
  split; [exact wf_react|].
  intros d webAudio t0 es st.
  destruct (wf_run es _ (wf_new_monitor d webAudio t0)) as (Hnodup & Hbelow & Hnibp).
  fold st in Hnodup, Hbelow, Hnibp.
  split; [exact Hnodup|]. split; [exact Hbelow|].
  intros id t Hid. exact (proj2 (Hnibp id Hid) t).
Qed.

(** A measurement started on a fresh monitor. *)
Lemma timer_queue_stays_well_formed_witness :
  WellFormed fresh /\ WellFormed (react fresh (Do StartNIBP)).
Proof.
  assert (WellFormed fresh) as H by exact (wf_new_monitor blank_dom true 0).
  split; [exact H|].
  exact (proj1 timer_queue_stays_well_formed (Do StartNIBP) fresh H).
Defined.

Lemma stopNIBPMeasurement_timers (st : Monitor) :
  timers (win (stopNIBPMeasurement st))
  = match nibpTimer st with
    | Some id => filter (fun t => negb (Pos.eqb (tid t) id)) (timers (win st))
    | None => timers (win st)
    end /\
  rafQueue (win (stopNIBPMeasurement st)) = rafQueue (win st) /\
  nibpTimer (stopNIBPMeasurement st) = None.
Proof.
  unfold stopNIBPMeasurement. cbv zeta.
  match goal with
  | |- context [match ?x with Some _ => _ | None => _ end] =>
      change x with (nibpTimer st)
  end.
  destruct (nibpTimer st) eqn:Hid; repeat split; try reflexivity. exact Hid.
Qed.

Lemma filter_absorbs {A : Type} (f g : A -> bool) (l : list A) :
  (forall x : A, In x l -> f x = true -> g x = true) ->
  filter f (filter g l) = filter f l.
Proof.
  induction l as [|a l IH]; intros H; [reflexivity|].
  cbn [filter]. destruct (g a) eqn:Hg.
  - cbn [filter]. rewrite IH; [reflexivity|]. intros x Hx. apply H. now right.
  - destruct (f a) eqn:Hf.
    + rewrite (H a (or_introl eq_refl) Hf) in Hg. discriminate Hg.
    + apply IH. intros x Hx. apply H. now right.
Qed.

(** The timeouts a stop removes are retriggers. *)
Lemma stop_filter_other (f : Timer -> bool) (st : Monitor) :
  WellFormed st ->
  (forall t : Timer, f t = true -> cb t <> NibpRetrigger) ->
  filter f (timers (win (stopNIBPMeasurement st))) = filter f (timers (win st)).
Proof.
  intros (_ & _ & Hnibp) Hf.
  destruct (stopNIBPMeasurement_timers st) as (-> & _ & _).
  destruct (nibpTimer st) as [id|] eqn:Hid; [|reflexivity].
  apply filter_absorbs. intros t Hin Hft.
  apply Bool.negb_true_iff, Pos.eqb_neq. intros Htid.
  exact (Hf t Hft (proj2 (Hnibp id eq_refl) t Hin Htid)).
Qed.

Lemma stop_keeps_other_timers (st : Monitor) (t : Timer) :
  WellFormed st -> In t (timers (win st)) -> cb t <> NibpRetrigger ->
  In t (timers (win (stopNIBPMeasurement st))).
Proof.
  intros (_ & _ & Hnibp) Hin Hcb.
  destruct (stopNIBPMeasurement_timers st) as (-> & _ & _).
  destruct (nibpTimer st) as [id|] eqn:Hid; [|exact Hin].
  apply filter_In. split; [exact Hin|].
  apply Bool.negb_true_iff, Pos.eqb_neq. intros Htid.
  exact (Hcb (proj2 (Hnibp id eq_refl) t Hin Htid)).
Qed.

Lemma stop_ticks (a : animation) (st : Monitor) :
  WellFormed st -> pending_ticks a (stopNIBPMeasurement st) = pending_ticks a st.
Proof.
  intros Hwf. unfold pending_ticks.
  rewrite stop_filter_other; [|exact Hwf|].
  - now destruct (stopNIBPMeasurement_timers st) as (_ & -> & _).
  - intros t Ht Hcb. rewrite Hcb in Ht. discriminate Ht.
Qed.

(** X9: a stop cancels nothing but the retrigger.  In a well-formed state,
    [stopNIBPMeasurement] removes no timeout other than a retrigger: every
    other pending timeout is still pending afterwards, the pending silence
    expiries and the waveform ticks are exactly those of before, and no
    timeout is added. *)
Theorem stop_cancels_only_the_retrigger (st : Monitor) :
  WellFormed st ->
  (forall t : Timer,
      In t (timers (win st)) -> cb t <> NibpRetrigger ->
      In t (timers (win (stopNIBPMeasurement st)))) /\
  (forall t : Timer,
      In t (timers (win (stopNIBPMeasurement st))) -> In t (timers (win st))) /\
  pending_unsilence (stopNIBPMeasurement st) = pending_unsilence st /\
  (forall a : animation,
      pending_ticks a (stopNIBPMeasurement st) = pending_ticks a st).
Proof.
  intros Hwf. split; [|split; [|split]].
  - intros t. now apply stop_keeps_other_timers.
  - intros t. destruct (stopNIBPMeasurement_timers st) as (-> & _ & _).
    destruct (nibpTimer st); [|trivial]. intros Hin.
    apply filter_In in Hin. exact (proj1 Hin).
  - unfold pending_unsilence. rewrite stop_filter_other; [reflexivity|exact Hwf|].
    intros t Ht Hcb. rewrite Hcb in Ht. discriminate Ht.
  - intros a. now apply stop_ticks.
Qed.

(** A completed measurement on a silenced, frozen monitor: the stop removes
    the retrigger and leaves the silence expiry and both ticks. *)
Lemma stop_cancels_only_the_retrigger_witness :
  let st := run [Do SilenceAlarm; Do ToggleFreeze; Paint; Do StartNIBP; Wait 5000] fresh in
  WellFormed st /\
  List.length (timers (win st)) = 4%nat /\
  List.length (timers (win (stopNIBPMeasurement st))) = 3%nat /\
  pending_unsilence (stopNIBPMeasurement st) = pending_unsilence st.
Proof.
  intros st.
  assert (WellFormed st) as H
    by (apply wf_run; exact (wf_new_monitor blank_dom true 0)).
  split; [exact H|].
  split; [vm_compute; reflexivity|]. split; [vm_compute; reflexivity|].
  destruct (stop_cancels_only_the_retrigger st H) as (_ & _ & Hp & _).
  exact Hp.
Defined.

(** ** One tick per waveform *)

Lemma filter_partition_length {A : Type} (f p : A -> bool) (l : list A) :
  (List.length (filter f (filter p l))
   + List.length (filter f (filter (fun x => negb (p x)) l)))%nat
  = List.length (filter f l).
Proof.
  induction l as [|a l IH]; [reflexivity|].
  simpl. destruct (p a); simpl; destruct (f a); simpl; lia.
Qed.

Lemma filter_map_length {A B : Type} (f : B -> bool) (g : A -> B) (l : list A) :
  List.length (filter f (map g l)) = List.length (filter (fun x => f (g x)) l).
Proof.
  induction l as [|a l IH]; [reflexivity|].
  cbn [map filter]. destruct (f (g a)); simpl; now rewrite IH.
Qed.

Lemma run_callback_ticks (a : animation) (c : callback) (st : Monitor) :
  pending_ticks a (run_callback c st)
  = (pending_ticks a st + if is_tick a c then 1 else 0)%nat.
Proof.
  unfold pending_ticks.
  destruct c as [| | | |[|]], a; unfold_methods; cbn; split_ifs; cbn;
    rewrite ?filter_app, ?length_app; cbn; lia.
Qed.

Lemma run_all_ticks (a : animation) (cs : list callback) (st : Monitor) :
  pending_ticks a (run_all cs st)
  = (pending_ticks a st + List.length (filter (is_tick a) cs))%nat.
Proof.
  revert st. induction cs as [|c cs IH]; intros st; [cbn; lia|].
  rewrite run_all_cons, IH, run_callback_ticks. cbn [filter].
  destruct (is_tick a c); simpl; lia.
Qed.

Lemma step_ms_ticks (a : animation) (st : Monitor) :
  pending_ticks a (step_ms st) = pending_ticks a st.
Proof.
  rewrite step_ms_unfold, run_all_ticks, filter_map_length.
  unfold pending_ticks. cbn [win set_win timers set_timers rafQueue set_now].
  pose proof (filter_partition_length (fun t => is_tick a (cb t))
                (is_due (now (win st) + 1)) (timers (win st))) as H.
  lia.
Qed.

Lemma animationFrame_ticks (a : animation) (st : Monitor) :
  pending_ticks a (animationFrame st) = pending_ticks a st.
Proof.
  rewrite animationFrame_unfold, run_all_ticks, filter_map_length.
  unfold pending_ticks. cbn [win set_win timers rafQueue set_rafQueue filter].
  cbn [is_tick]. simpl List.length.
  change (fun x : animation => animation_eqb a x) with (animation_eqb a). lia.
Qed.

Lemma pending_ticks_win (a : animation) (st st' : Monitor) :
  win st' = win st -> pending_ticks a st' = pending_ticks a st.
Proof. intros H. unfold pending_ticks. now rewrite H. Qed.

Lemma handle_ticks (a : animation) (c : command) (st : Monitor) :
  WellFormed st -> pending_ticks a (handle c st) = pending_ticks a st.
Proof.
  intros Hwf. destruct c; unfold handle, updateVital, testAlarm;
    try (apply pending_ticks_win; rewrite ?win_checkAlarms, ?win_triggerAlarm;
         reflexivity).
  - apply pending_ticks_win. destruct checked; reflexivity.
  - unfold pending_ticks. unfold_methods. cbn. rewrite filter_app, length_app. cbn. lia.
  - unfold pending_ticks. unfold_methods. destruct (nibpMeasuring st); [reflexivity|].
    cbn. rewrite filter_app, length_app. cbn. lia.
  - now apply stop_ticks.
Qed.

Lemma react_ticks (a : animation) (e : event) (st : Monitor) :
  WellFormed st -> pending_ticks a (react st e) = pending_ticks a st.
Proof.
  intros Hwf. destruct e as [c|ms|]; cbn [react].
  - now apply handle_ticks.
  - unfold elapse. apply N.iter_ind; [reflexivity|].
    intros n s Hs. now rewrite step_ms_ticks.
  - apply animationFrame_ticks.
Qed.

(** X10: each waveform has exactly one tick pending.  From a page load,
    after any events (freezing and unfreezing, repaints, time passing, NIBP
    starts and stops), exactly one [animateECG] and one [animatePleth] call
    is pending, as an animation-frame callback or as a timeout: the loops
    are never lost and never doubled.  Every single event keeps the count
    in a well-formed state. *)
Theorem one_tick_per_waveform :
  (forall (a : animation) (e : event) (st : Monitor),
      WellFormed st -> pending_ticks a (react st e) = pending_ticks a st) /\
  (forall (a : animation) (d : Dom) (webAudio : bool) (t0 : Z) (es : list event),
      pending_ticks a (run es (new_monitor d webAudio t0)) = 1%nat).
Proof.
  split; [exact react_ticks|].
  intros a d webAudio t0 es.
  assert (pending_ticks a (new_monitor d webAudio t0) = 1%nat) as H0
    by (destruct a, webAudio; reflexivity).
  pose proof (wf_new_monitor d webAudio t0) as Hwf.
  revert H0 Hwf. generalize (new_monitor d webAudio t0).
  induction es as [|e es IH]; intros s Hs Hwf; [exact Hs|].
  change (run (e :: es) s) with (run es (react s e)).
  apply IH; [|now apply wf_react].
  now rewrite react_ticks.
Qed.

(** Freezing a fresh monitor. *)
Lemma one_tick_per_waveform_witness :
  WellFormed fresh /\
  pending_ticks AnimateECG (react fresh (Do ToggleFreeze)) = 1%nat.
Proof.
  assert (WellFormed fresh) as H by exact (wf_new_monitor blank_dom true 0).
  split; [exact H|].
  rewrite (proj1 one_tick_per_waveform AnimateECG (Do ToggleFreeze) fresh H).
  reflexivity.
Defined.

(** X11: [stopNIBPMeasurement] is idempotent, and a start that follows a
    stop always begins a measurement, whatever the state was (a completed
    cycle included): the flag is set, the status reads 'Measuring...', the
    start button is disabled, the stop button enabled, and the
    'Deflating...' transition is due 3000 ms later. *)
Theorem stop_then_start_begins_a_cycle (st : Monitor) :
  stopNIBPMeasurement (stopNIBPMeasurement st) = stopNIBPMeasurement st /\
  let st' := startNIBPMeasurement (stopNIBPMeasurement st) in
  nibpMeasuring st' = true /\
  nibpStatus (dom st') = mkStatus "Measuring..." true false /\
  startBtnDisabled (dom st') = true /\
  stopBtnDisabled (dom st') = false /\
  In (mkTimer (nextTimerId (win st)) (now (win st) + 3000) NibpDeflate)
     (timers (win st')) /\
  now (win st') = now (win st).
Proof.
  destruct st as [vs en au act sil fr ar ste rh nm ni nt ctx d w o].
  unfold_methods. cbn. destruct nt as [id|]; cbn.
  - repeat split. apply in_or_app. right. now left.
  - repeat split. apply in_or_app. right. now left.
Qed.

(** ** The NIBP cycle, from any state *)

Lemma view_run_callback (c : callback) (st : Monitor) :
  nibp_view (run_callback c st) = view_callback c (nibp_view st).
Proof.
  unfold nibp_view, nibp_pending.
  destruct (nibpMeasuring st) eqn:Hm, (gtb (nibpInterval st) (of_Z 0)) eqn:Hg,
    (isFrozen st) eqn:Hf;
    destruct c as [| | | |[|]]; unfold_methods;
    cbn -[gtb scale_trunc Z.max Z.add];
    rewrite ?Hm, ?Hg, ?Hf; cbn -[gtb scale_trunc Z.max Z.add];
    rewrite ?filter_app, ?map_app; cbn -[gtb scale_trunc Z.max Z.add];
    rewrite ?app_nil_r, ?Hm; reflexivity.
Qed.

Lemma view_run_all (cs : list callback) (st : Monitor) :
  nibp_view (run_all cs st)
  = fold_left (fun w c => view_callback c w) cs (nibp_view st).
Proof.
  revert st. induction cs as [|c cs IH]; intros st; [reflexivity|].
  rewrite run_all_cons, IH, view_run_callback. reflexivity.
Qed.

Lemma fold_view_skips_others (cs : list callback) (v : NibpView) :
  fold_left (fun w c => view_callback c w) cs v
  = fold_left (fun w c => view_callback c w) (filter is_nibp cs) v.
Proof.
  revert v. induction cs as [|c cs IH]; intros v; [reflexivity|].
  cbn [fold_left filter]. destruct (is_nibp c) eqn:Hc.
  - cbn [fold_left]. apply IH.
  - rewrite IH. now destruct c.
Qed.

Lemma pending_split (p : Z -> bool) (ts : list Timer) :
  map (fun t => (due t, cb t))
    (filter (fun t => is_nibp (cb t)) (filter (fun t => p (due t)) ts))
  = filter (fun q => p (fst q))
      (map (fun t => (due t, cb t)) (filter (fun t => is_nibp (cb t)) ts)).
Proof.
  induction ts as [|t ts IH]; [reflexivity|].
  cbn [filter]. destruct (p (due t)) eqn:Hp, (is_nibp (cb t)) eqn:Hn;
    cbn [filter map fst]; rewrite ?Hn, ?Hp; cbn [map]; now rewrite ?IH.
Qed.

Lemma ready_callbacks (t : Z) (ts : list Timer) :
  filter is_nibp (map cb (filter (is_due t) ts))
  = map snd
      (filter (fun q => (fst q <=? t)%Z)
         (map (fun x => (due x, cb x)) (filter (fun x => is_nibp (cb x)) ts))).
Proof.
  induction ts as [|x ts IH]; [reflexivity|].
  cbn [filter]. unfold is_due at 1.
  destruct (due x <=? t)%Z eqn:Hd, (is_nibp (cb x)) eqn:Hn;
    cbn [filter map fst snd]; rewrite ?Hn, ?Hd; cbn [map snd];
    fold (is_due t); now rewrite ?IH.
Qed.

(** The cycle's view of the monitor evolves by itself. *)
Lemma view_step_ms_spec (st : Monitor) :
  nibp_view (step_ms st) = view_step_ms (nibp_view st).
Proof.
  rewrite step_ms_unfold, view_run_all, fold_view_skips_others, ready_callbacks.
  unfold view_step_ms. cbv zeta. rewrite <- fold_left_through_map.
  f_equal. unfold nibp_view, nibp_pending. cbn [nv_text nv_measuring nv_interval nv_now nv_pending].
  cbn [dom set_win nibpMeasuring nibpInterval win now set_now set_timers timers].
  f_equal.
  exact (pending_split (fun d => negb (d <=? now (win st) + 1)%Z) (timers (win st))).
Qed.

Lemma view_elapse (k : N) (st : Monitor) :
  nibp_view (elapse k st) = N.iter k view_step_ms (nibp_view st).
Proof.
  induction k as [|k IH] using N.peano_ind; [reflexivity|].
  now rewrite elapse_succ, N.iter_succ, view_step_ms_spec, IH.
Qed.

Lemma view_iter_succ (k : N) (v : NibpView) :
  N.iter (N.succ k) view_step_ms v = view_step_ms (N.iter k view_step_ms v).
Proof. apply N.iter_succ. Qed.

(** While its one pending timeout is not due, the view only sees the clock
    advance. *)
Lemma view_waits (text : string) (m : bool) (i : num) (T D : Z) (c : callback)
    (k : N) :
  (T + Z.of_N k < D)%Z ->
  N.iter k view_step_ms (mkNibpView text m i T [(D, c)])
  = mkNibpView text m i (T + Z.of_N k) [(D, c)].
Proof.
  induction k as [|k IH] using N.peano_ind; intros Hlt.
  - cbn. now rewrite Z.add_0_r.
  - rewrite view_iter_succ, IH by lia.
    unfold view_step_ms. cbn [nv_now nv_pending nv_text nv_measuring nv_interval filter fst].
    destruct (Z.leb_spec D (T + Z.of_N k + 1)) as [Hle|_]; [lia|].
    cbn [negb fold_left]. f_equal. lia.
Qed.

(** The millisecond in which its one pending timeout is due. *)
Lemma view_fires (text : string) (m : bool) (i : num) (T : Z) (c : callback) :
  view_step_ms (mkNibpView text m i T [((T + 1)%Z, c)])
  = view_callback c (mkNibpView text m i (T + 1) []).
Proof.
  unfold view_step_ms. cbn [nv_now nv_pending nv_text nv_measuring nv_interval filter fst].
  rewrite Z.leb_refl. reflexivity.
Qed.

Lemma view_waits_then_fires (text : string) (m : bool) (i : num) (T : Z)
    (c : callback) (e : N) :
  N.iter (N.succ e) view_step_ms
    (mkNibpView text m i T [((T + Z.of_N (N.succ e))%Z, c)])
  = view_callback c (mkNibpView text m i (T + Z.of_N (N.succ e)) []).
Proof.
  rewrite view_iter_succ, view_waits by lia.
  replace (T + Z.of_N (N.succ e))%Z with (T + Z.of_N e + 1)%Z by lia.
  apply view_fires.
Qed.

(** A completed cycle whose flag is still set stays completed. *)
Lemma view_stays_complete (k : N) (v : NibpView) :
  nv_text v = "Complete"%string -> nv_measuring v = true ->
  Forall (fun p => snd p = NibpRetrigger) (nv_pending v) ->
  nv_text (N.iter k view_step_ms v) = "Complete"%string /\
  nv_measuring (N.iter k view_step_ms v) = true /\
  Forall (fun p => snd p = NibpRetrigger) (nv_pending (N.iter k view_step_ms v)).
Proof.
  intros Ht Hm Hp.
  induction k as [|k IH] using N.peano_ind; [now repeat split|].
  rewrite view_iter_succ. destruct IH as (Ht' & Hm' & Hp').
  set (w := N.iter k view_step_ms v) in *. clearbody w.
  unfold view_step_ms. cbv zeta.
  assert (forall (l : list (Z * callback)) (u : NibpView),
             nv_measuring u = true ->
             Forall (fun p => snd p = NibpRetrigger) l ->
             fold_left (fun x p => view_callback (snd p) x) l u = u) as Hfold.
  { induction l as [|p l IHl]; intros u Hu Hl; [reflexivity|].
    inversion Hl as [|? ? Hp0 Hl0]; subst. cbn [fold_left].
    rewrite Hp0. cbn [view_callback]. rewrite Hu. now apply IHl. }
  rewrite Hfold.
  - cbn [nv_text nv_measuring nv_pending]. repeat split; trivial.
    rewrite Forall_forall in *. intros p Hin. apply filter_In in Hin.
    now apply Hp'.
  - exact Hm'.
  - rewrite Forall_forall in *. intros p Hin. apply filter_In in Hin.
    now apply Hp'.
Qed.

Lemma view_after_start (st : Monitor) :
  nibpMeasuring st = false -> nibp_pending st = [] ->
  nibp_view (startNIBPMeasurement st)
  = mkNibpView "Measuring..." true (nibpInterval st) (now (win st))
      [((now (win st) + 3000)%Z, NibpDeflate)].
Proof.
  intros Hm Hp. unfold nibp_view, nibp_pending in *. unfold_methods. rewrite Hm.
  cbn. rewrite filter_app, map_app, Hp. reflexivity.
Qed.

(** The view of a cycle [k] ms after its start. *)
Lemma view_cycle (i : num) (T : Z) (k : N) :
  let v := N.iter k view_step_ms
             (mkNibpView "Measuring..." true i T [((T + 3000)%Z, NibpDeflate)]) in
  nv_text v
  = (if (k <? 3000)%N then "Measuring..."
     else if (k <? 5000)%N then "Deflating..." else "Complete")%string /\
  nv_measuring v = true /\
  (k = 5000%N ->
   nv_pending v
   = if gtb i (of_Z 0)
     then [((T + 5000 + Z.max 0 (scale_trunc i 60000))%Z, NibpRetrigger)]
     else []).
Proof.
  cbv zeta.
  set (v0 := mkNibpView "Measuring..." true i T [((T + 3000)%Z, NibpDeflate)]).
  assert (N.iter 3000 view_step_ms v0
          = mkNibpView "Deflating..." true i (T + 3000)
              [((T + 3000 + 2000)%Z, NibpComplete)]) as H3000.
  { unfold v0. change 3000%Z with (Z.of_N (N.succ 2999)).
    change 3000%N with (N.succ 2999). rewrite view_waits_then_fires. reflexivity. }
  assert (N.iter 5000 view_step_ms v0
          = view_callback NibpComplete (mkNibpView "Deflating..." true i (T + 5000) []))
    as H5000.
  { change 5000%N with (N.succ 1999 + 3000)%N. rewrite N.iter_add, H3000.
    change 2000%Z with (Z.of_N (N.succ 1999)).
    rewrite view_waits_then_fires.
    replace (T + 3000 + Z.of_N (N.succ 1999))%Z with (T + 5000)%Z by lia.
    reflexivity. }
  destruct (N.ltb_spec k 3000) as [Hk3|Hk3].
  - unfold v0. rewrite view_waits by lia. repeat split. intros ->. lia.
  - destruct (N.ltb_spec k 5000) as [Hk5|Hk5].
    + assert (N.iter k view_step_ms v0
              = N.iter (k - 3000) view_step_ms (N.iter 3000 view_step_ms v0)) as ->
        by (rewrite <- N.iter_add; f_equal; lia).
      rewrite H3000, view_waits by lia. repeat split. intros H. lia.
    + assert (N.iter k view_step_ms v0
              = N.iter (k - 5000) view_step_ms (N.iter 5000 view_step_ms v0)) as ->
        by (rewrite <- N.iter_add; f_equal; lia).
      rewrite H5000.
      set (w := view_callback NibpComplete (mkNibpView "Deflating..." true i (T + 5000) [])).
      assert (nv_text w = "Complete"%string /\ nv_measuring w = true /\
              Forall (fun p => snd p = NibpRetrigger) (nv_pending w)) as (Ht & Hm & Hp).
      { unfold w. cbn [view_callback nv_interval nv_measuring nv_now nv_pending].
        destruct (gtb i (of_Z 0)); cbn; repeat split; repeat constructor. }
      destruct (view_stays_complete (k - 5000) w Ht Hm Hp) as (Ht' & Hm' & _).
      split; [exact Ht'|]. split; [exact Hm'|].
      intros ->. change (5000 - 5000)%N with 0%N. cbn [N.iter].
      unfold w. cbn [view_callback nv_interval nv_measuring nv_now nv_pending].
      now destruct (gtb i (of_Z 0)).
Qed.

(** X20: the measurement cycle, from any state.  When no measurement is
    running and no NIBP timeout is pending, a start at any clock value
    shows 'Measuring...' for the first 3000 ms, 'Deflating...' up to
    5000 ms and 'Complete' from then on, for as long as no command arrives
    and whatever else the monitor does meanwhile.  At 5000 ms, for an
    interval whose [nibpInterval * 60000] ms are at most 2147483647, the
    largest delay a timeout keeps, the retrigger is pending
    [nibpInterval * 60000] ms later when the interval is positive, and
    nothing is pending otherwise. *)
Theorem nibp_cycle_from_any_state (st : Monitor) (k : N) :
  nibpMeasuring st = false -> nibp_pending st = [] ->
  let st' := elapse k (startNIBPMeasurement st) in
  textContent (nibpStatus (dom st'))
  = (if (k <? 3000)%N then "Measuring..."
     else if (k <? 5000)%N then "Deflating..." else "Complete")%string /\
  nibpMeasuring st' = true /\
  now (win st') = (now (win st) + Z.of_N k)%Z /\
  (k = 5000%N ->
   (scale_trunc (nibpInterval st) 60000 <= 2147483647)%Z ->
   nibp_pending st'
   = if gtb (nibpInterval st) (of_Z 0)
     then [((now (win st) + 5000 + Z.max 0 (scale_trunc (nibpInterval st) 60000))%Z,
            NibpRetrigger)]
     else []).
Proof.
  intros Hm Hp st'.
  pose proof (view_elapse k (startNIBPMeasurement st)) as Hview.
  fold st' in Hview. rewrite (view_after_start st Hm Hp) in Hview.
  pose proof (view_cycle (nibpInterval st) (now (win st)) k) as Hcycle.
  cbv zeta in Hcycle. rewrite <- Hview in Hcycle.
  destruct Hcycle as (Htext & Hflag & Hpending).
  split; [exact Htext|]. split; [exact Hflag|].
  split; [|intros Hk _; exact (Hpending Hk)].
  destruct (elapse_frame k (startNIBPMeasurement st)) as (_ & _ & _ & Hnow).
  fold st' in Hnow. rewrite Hnow. unfold_methods. rewrite Hm. reflexivity.
Qed.

(** A frozen, silenced monitor at clock 777, with the interval of 5
    minutes: four seconds into a measurement, and at its end, when the
    retrigger is due 300000 ms later. *)
Lemma nibp_cycle_from_any_state_witness :
  let st := run [Do SilenceAlarm; Do ToggleFreeze; Paint; Wait 777] fresh in
  nibpMeasuring st = false /\ nibp_pending st = [] /\
  (scale_trunc (nibpInterval st) 60000 <= 2147483647)%Z /\
  textContent (nibpStatus (dom (elapse 4000 (startNIBPMeasurement st))))
  = "Deflating..."%string /\
  nibp_pending (elapse 5000 (startNIBPMeasurement st))
  = [(305777%Z, NibpRetrigger)].
Proof.
  intros st.
  assert (nibpMeasuring st = false) as Hm by (vm_compute; reflexivity).
  assert (nibp_pending st = []) as Hp by (vm_compute; reflexivity).
  assert (scale_trunc (nibpInterval st) 60000 <= 2147483647)%Z as Hi
    by (vm_compute; discriminate).
  split; [exact Hm|]. split; [exact Hp|]. split; [exact Hi|].
  pose proof (nibp_cycle_from_any_state st 4000 Hm Hp) as H4.
  pose proof (nibp_cycle_from_any_state st 5000 Hm Hp) as H5.
  cbv zeta in H4, H5.
  split; [exact (proj1 H4)|].
  destruct H5 as (_ & _ & _ & H5). rewrite (H5 eq_refl Hi).
  vm_compute. reflexivity.
Defined.

Lemma view_checkAlarms (st : Monitor) : nibp_view (checkAlarms st) = nibp_view st.
Proof.
  unfold nibp_view, nibp_pending. rewrite win_checkAlarms, nibpMeasuring_checkAlarms.
  unfold checkAlarms. destruct (collect_alarms st) as [al ov].
  unfold triggerAlarm, createAlarmSound. cbn. split_ifs; reflexivity.
Qed.

(** The commands that address the NIBP cycle. *)
Lemma view_other_commands (c : command) (st : Monitor) :
  match c with
  | StartNIBP | StopNIBP | SetNibpInterval _ => True
  | _ => nibp_view (handle c st) = nibp_view st
  end.
Proof.
  destruct c; trivial; unfold handle, updateVital, testAlarm.
  - now rewrite view_checkAlarms.
  - destruct checked; reflexivity.
  - unfold nibp_view, nibp_pending, triggerAlarm, createAlarmSound. cbn.
    split_ifs; reflexivity.
  - unfold nibp_view, nibp_pending. unfold_methods. cbn.
    rewrite filter_app, map_app. cbn. now rewrite app_nil_r.
Qed.

(** X21: the NIBP cycle runs by itself.  Its view (status text, flag,
    interval, clock and own pending timeouts) after any stretch of time is
    a function of its view before: two monitors that agree on the view
    agree on it after the same time has passed, whatever their alarms,
    vitals, audio, freeze state and other timers are.  A repaint and every
    command other than start, stop and the interval setting leave the view
    unchanged. *)
Theorem nibp_cycle_runs_by_itself :
  (forall (k : N) (st : Monitor),
      nibp_view (elapse k st) = N.iter k view_step_ms (nibp_view st)) /\
  (forall (k : N) (st1 st2 : Monitor),
      nibp_view st1 = nibp_view st2 ->
      nibp_view (elapse k st1) = nibp_view (elapse k st2)) /\
  (forall st : Monitor, nibp_view (animationFrame st) = nibp_view st) /\
  (forall (c : command) (st : Monitor),
      match c with
      | StartNIBP | StopNIBP | SetNibpInterval _ => True
      | _ => nibp_view (handle c st) = nibp_view st
      end).
Proof.
  split; [exact view_elapse|]. split; [|split; [|exact view_other_commands]].
  - intros k st1 st2 H. now rewrite !view_elapse, H.
  - intros st. rewrite animationFrame_unfold, view_run_all, fold_view_skips_others.
    assert (filter is_nibp (map Animate (rafQueue (win st))) = []) as ->.
    { induction (rafQueue (win st)) as [|a q IH]; [reflexivity|exact IH]. }
    reflexivity.
Qed.

(** A fresh monitor and one that is alarming, silenced and frozen, both two
    seconds into a measurement started at clock 0. *)
Lemma nibp_cycle_runs_by_itself_witness :
  let st1 := run [Do StartNIBP] fresh in
  let st2 := run [Do (UpdateVital spo2 (of_Z 80)); Do ToggleFreeze; Paint; Do StartNIBP] fresh in
  nibp_view st1 = nibp_view st2 /\
  nibp_view (elapse 2000 st1) = nibp_view (elapse 2000 st2).
Proof.
  intros st1 st2.
  assert (nibp_view st1 = nibp_view st2) as H by reflexivity.
  split; [exact H|].
  exact (proj1 (proj2 nibp_cycle_runs_by_itself) 2000%N st1 st2 H).
Defined.

(** ** The alarm between evaluations *)

Lemma run_callback_tones (c : callback) (st : Monitor) :
  alarmSounds (out (run_callback c st)) = alarmSounds (out st).
Proof. by_cases_on c; reflexivity. Qed.

Lemma run_all_alarm_display (cs : list callback) (st : Monitor) :
  alarmStatusActive (dom (run_all cs st)) = alarmStatusActive (dom st) /\
  overlays (dom (run_all cs st)) = overlays (dom st) /\
  alarmMessage (dom (run_all cs st)) = alarmMessage (dom st) /\
  alarmSounds (out (run_all cs st)) = alarmSounds (out st).
Proof.
  revert st. induction cs as [|c cs IH]; intros st; [now repeat split|].
  rewrite run_all_cons. destruct (IH (run_callback c st)) as (-> & -> & -> & ->).
  destruct (run_callback_alarm_dom c st) as (-> & -> & ->).
  rewrite run_callback_tones. now repeat split.
Qed.

Lemma elapse_alarm_display (k : N) (st : Monitor) :
  alarmStatusActive (dom (elapse k st)) = alarmStatusActive (dom st) /\
  overlays (dom (elapse k st)) = overlays (dom st) /\
  alarmMessage (dom (elapse k st)) = alarmMessage (dom st) /\
  alarmSounds (out (elapse k st)) = alarmSounds (out st).
Proof.
  induction k as [|k IH] using N.peano_ind; [now repeat split|].
  rewrite elapse_succ, step_ms_unfold.
  match goal with |- context [run_all ?cs ?s] =>
    destruct (run_all_alarm_display cs s) as (-> & -> & -> & ->) end.
  exact IH.
Qed.

(** X22: time alone never changes the alarm.  However long the monitor is
    left alone, and whatever timeouts fire meanwhile, the alarm flag, the
    banner, the message, the overlays, the vitals and the count of alarm
    tones stay as they are.  In particular the alarm that [silenceAlarm]
    cleared does not come back when the silence expires, even though the
    breach persists: it stays inactive until the next evaluation. *)
Theorem time_never_changes_the_alarm (k : N) (st : Monitor) :
  (alarmActive (elapse k st) = alarmActive st /\
   alarmEnabled (elapse k st) = alarmEnabled st /\
   vitals (elapse k st) = vitals st /\
   alarmStatusActive (dom (elapse k st)) = alarmStatusActive (dom st) /\
   alarmMessage (dom (elapse k st)) = alarmMessage (dom st) /\
   overlays (dom (elapse k st)) = overlays (dom st) /\
   alarmSounds (out (elapse k st)) = alarmSounds (out st)) /\
  alarmActive (elapse k (silenceAlarm st)) = false /\
  vitals (elapse k (silenceAlarm st)) = vitals st.
Proof.
  destruct (elapse_frame k st) as (Hv & Hen & Hact & _).
  destruct (elapse_alarm_display k st) as (Hbanner & Hov & Hmsg & Htones).
  split; [now repeat split|].
  destruct (elapse_frame k (silenceAlarm st)) as (-> & _ & -> & _).
  now split.
Qed.

Lemma alarmMessage_checkAlarms_inactive (st : Monitor) :
  alarmActive (checkAlarms st) = false ->
  alarmMessage (dom (checkAlarms st)) = alarmMessage (dom st).
Proof.
  unfold checkAlarms.
  destruct (negb (alarmEnabled st) || alarmSilenced st); [reflexivity|].
  destruct (collect_alarms st) as [al ov].
  destruct (0 <? Datatypes.length al)%nat; [|reflexivity].
  rewrite alarmActive_triggerAlarm. discriminate.
Qed.

(** X23: the message line is written only when the alarm is raised.  An
    event after which the alarm is inactive has left the message text as
    it was: clearing, silencing, resetting and disabling the alarm hide
    the banner but keep the last message, the text of the alarm test
    included, until the next alarm overwrites it. *)
Theorem message_outlives_the_alarm (e : event) (st : Monitor) :
  alarmActive (react st e) = false ->
  alarmMessage (dom (react st e)) = alarmMessage (dom st).
Proof.
  intros Hinactive. destruct e as [c|ms|]; cbn [react] in *.
  - destruct c; unfold handle, updateVital, testAlarm in *.
    + now rewrite alarmMessage_checkAlarms_inactive.
    + destruct checked; reflexivity.
    + rewrite alarmActive_triggerAlarm in Hinactive. discriminate Hinactive.
    + reflexivity.
    + reflexivity.
    + reflexivity.
    + reflexivity.
    + reflexivity.
    + reflexivity.
    + reflexivity.
    + unfold_methods. destruct (nibpMeasuring st); reflexivity.
    + unfold_methods. cbn. destruct (nibpTimer st); reflexivity.
    + reflexivity.
  - now destruct (elapse_alarm_display ms st) as (_ & _ & -> & _).
  - rewrite animationFrame_unfold.
    match goal with |- context [run_all ?cs ?s] =>
      destruct (run_all_alarm_display cs s) as (_ & _ & -> & _) end.
    reflexivity.
Qed.

(** The alarm test, then a silence. *)
Lemma message_outlives_the_alarm_witness :
  let st := testAlarm fresh in
  alarmActive (react st (Do SilenceAlarm)) = false /\
  alarmMessage (dom (react st (Do SilenceAlarm)))
  = "Test Alarm - All systems functioning"%string.
Proof.
  intros st.
  assert (alarmActive (react st (Do SilenceAlarm)) = false) as H by reflexivity.
  split; [exact H|].
  rewrite (message_outlives_the_alarm (Do SilenceAlarm) st H). reflexivity.
Defined.

(** ** Without audio *)

Lemma run_callback_audioContext (c : callback) (st : Monitor) :
  audioContext (run_callback c st) = audioContext st.
Proof. by_cases_on c; reflexivity. Qed.

Lemma run_all_audioContext (cs : list callback) (st : Monitor) :
  audioContext (run_all cs st) = audioContext st.
Proof.
  revert st. induction cs as [|c cs IH]; intros st; [reflexivity|].
  now rewrite run_all_cons, IH, run_callback_audioContext.
Qed.

Lemma silent_triggerAlarm (alarms : list string) (st : Monitor) :
  audioContext st = false ->
  audioContext (triggerAlarm alarms st) = false /\
  alarmSounds (out (triggerAlarm alarms st)) = alarmSounds (out st).
Proof.
  intros H. unfold triggerAlarm, createAlarmSound. cbn. rewrite H.
  rewrite Bool.andb_false_r. now split.
Qed.

Lemma silent_checkAlarms (st : Monitor) :
  audioContext st = false ->
  audioContext (checkAlarms st) = false /\
  alarmSounds (out (checkAlarms st)) = alarmSounds (out st).
Proof.
  intros H. unfold checkAlarms.
  destruct (negb (alarmEnabled st) || alarmSilenced st); [now split|].
  destruct (collect_alarms st) as [al ov].
  destruct (0 <? Datatypes.length al)%nat; [|now split].
  destruct (silent_triggerAlarm al (set_dom (set_overlays ov (dom st)) st) H)
    as [-> ->].
  now split.
Qed.

Lemma silent_react (e : event) (st : Monitor) :
  audioContext st = false ->
  audioContext (react st e) = false /\
  alarmSounds (out (react st e)) = alarmSounds (out st).
Proof.
  intros H. destruct e as [c|ms|]; cbn [react].
  - destruct c; unfold handle, updateVital, testAlarm;
      try (now split); try (now apply silent_triggerAlarm).
    + exact (silent_checkAlarms (set_vitals (set_vital v value (vitals st)) st) H).
    + destruct checked; now split.
    + unfold_methods. destruct (nibpMeasuring st); now split.
    + unfold_methods. cbn. destruct (nibpTimer st); now split.
  - split.
    + unfold elapse. apply N.iter_invariant; [|exact H].
      intros s Hs. now rewrite step_ms_unfold, run_all_audioContext.
    + now destruct (elapse_alarm_display ms st) as (_ & _ & _ & ->).
  - rewrite animationFrame_unfold. split.
    + now rewrite run_all_audioContext.
    + match goal with |- context [run_all ?cs ?s] =>
        destruct (run_all_alarm_display cs s) as (_ & _ & _ & ->) end.
      reflexivity.
Qed.

(** X24: without Web Audio the monitor never builds an alarm tone.  When
    the audio context cannot be made at start-up, audio is switched off, and
    after any events whatsoever (the audio box checked again, alarms,
    the alarm test) there is still no audio context and not one alarm tone
    has been built, while the alarm itself works as usual. *)
Theorem no_audio_context_no_tone (d : Dom) (t0 : Z) (es : list event) :
  audioEnabled (new_monitor d false t0) = false /\
  audioContext (run es (new_monitor d false t0)) = false /\
  alarmSounds (out (run es (new_monitor d false t0))) = 0%nat /\
  alarmActive (testAlarm (run es (new_monitor d false t0))) = true.
Proof.
  split; [reflexivity|].
  assert (audioContext (new_monitor d false t0) = false /\
          alarmSounds (out (new_monitor d false t0)) = 0%nat) as H0
    by (split; reflexivity).
  assert (audioContext (run es (new_monitor d false t0)) = false /\
          alarmSounds (out (run es (new_monitor d false t0))) = 0%nat) as [Hctx Htones].
  { revert H0. generalize (new_monitor d false t0).
    induction es as [|e es IH]; intros s Hs; [exact Hs|].
    change (run (e :: es) s) with (run es (react s e)).
    apply IH. destruct Hs as [Hc Ht].
    destruct (silent_react e s Hc) as [Hc' Ht']. split; [exact Hc'|].
    now rewrite Ht'. }
  split; [exact Hctx|]. split; [exact Htones|apply alarmActive_triggerAlarm].
Qed.

(** ** Ranges and periods of the waveforms *)

Module WaveformBounds.

Import Waveform.
Local Open Scope R_scope.

Ltac bound_sines :=
  repeat match goal with
    | |- context [sin ?x] =>
        let s := fresh "s" in
        let Hs := fresh "Hs" in
        pose proof (SIN_bound x) as Hs;
        set (s := sin x) in *; clearbody s
    end.

Ltac split_windows :=
  repeat match goal with
    | |- context [Rlt_dec ?a ?b] => destruct (Rlt_dec a b)
    | |- context [Rle_dec ?a ?b] => destruct (Rle_dec a b)
    end.

Lemma base_amplitude_range (rhythm : string) (phase t : R) (random : nat -> R)
    (i : nat) :
  (forall j : nat, 0 <= random j < 1) ->
  -1.5 <= fst (generateArrhythmiaECG rhythm phase t random i) <= 1.5 /\
  (i <= snd (generateArrhythmiaECG rhythm phase t random i) <= S i)%nat.
Proof.
  intros Hrandom. pose proof (Hrandom i) as Hu.
  unfold generateArrhythmiaECG.
  repeat match goal with
    | |- context [String.eqb ?a ?b] => destruct (String.eqb a b)
    end;
    unfold bind, ret, Math_random, normal_beat; cbn [fst snd];
    split_windows; cbn [fst snd]; bound_sines; split; try lia; nra.
Qed.

(** X12: the amplitude that [generateArrhythmiaECG] returns lies in
    [[-1.5, 1.5]] for every rhythm name, phase and time, as long as the
    random draws lie in [[0, 1)]; it draws at most one random number. *)
Theorem ecg_base_amplitude_bounded (rhythm : string) (phase t : R)
    (random : nat -> R) (i : nat) :
  (forall j : nat, 0 <= random j < 1) ->
  -1.5 <= fst (generateArrhythmiaECG rhythm phase t random i) <= 1.5 /\
  (i <= snd (generateArrhythmiaECG rhythm phase t random i) <= S i)%nat.
Proof. exact (base_amplitude_range rhythm phase t random i). Qed.

Lemma no_noise_in_range : forall j : nat, 0 <= no_noise j < 1.
Proof. intros j. unfold no_noise. lra. Qed.

(** Ventricular fibrillation with the draws all 0.5. *)
Lemma ecg_base_amplitude_bounded_witness :
  (forall j : nat, 0 <= no_noise j < 1) /\
  -1.5 <= fst (generateArrhythmiaECG "VF" 0.2 0 no_noise 0%nat) <= 1.5.
Proof.
  split; [exact no_noise_in_range|].
  exact (proj1 (ecg_base_amplitude_bounded "VF" 0.2 0 no_noise 0%nat no_noise_in_range)).
Defined.

(** X13: the arrhythmia overlay is raised exactly for the six names of
    [abnormalRhythms], but only four rhythms besides NSR have a waveform of
    their own: for every other name, the flagged 'AFL' and 'PAC' included,
    [generateArrhythmiaECG] is the normal beat of NSR. *)
Theorem flagged_rhythms_without_waveform :
  (forall (st : Monitor) (d : AnalysisDom),
      (arrhythmiaOverlay (updateRhythmDisplay st d) = true
       <-> In (currentRhythm st) abnormalRhythms) /\
      rhythmValue (updateRhythmDisplay st d) = currentRhythm st /\
      stOverlay (updateRhythmDisplay st d) = stOverlay d) /\
  (forall (rhythm : string) (phase t : R),
      rhythm <> "AF"%string -> rhythm <> "VT"%string ->
      rhythm <> "VF"%string -> rhythm <> "PVC"%string ->
      generateArrhythmiaECG rhythm phase t = generateArrhythmiaECG "NSR" phase t) /\
  (forall (rhythm : string) (st : Monitor) (d : AnalysisDom) (phase t : R),
      rhythm = "AFL"%string \/ rhythm = "PAC"%string ->
      arrhythmiaOverlay (updateRhythmDisplay (set_currentRhythm rhythm st) d) = true /\
      generateArrhythmiaECG rhythm phase t = generateArrhythmiaECG "NSR" phase t).
Proof.
  split; [|split].
  - intros st d.
    assert (existsb (String.eqb (currentRhythm st)) abnormalRhythms = true
            <-> In (currentRhythm st) abnormalRhythms) as Hiff.
    { rewrite existsb_exists. split.
      - intros (x & Hx & Heq). apply String.eqb_eq in Heq. now subst x.
      - intros H. exists (currentRhythm st). split; [exact H|apply String.eqb_refl]. }
    unfold updateRhythmDisplay, includes. cbv zeta.
    destruct (existsb (String.eqb (currentRhythm st)) abnormalRhythms);
      cbn [arrhythmiaOverlay rhythmValue stOverlay];
      (split; [|split; reflexivity]).
    + split; [intros _; now apply Hiff|reflexivity].
    + split; [discriminate|]. intros H. apply Hiff in H. discriminate H.
  - intros rhythm phase t Haf Hvt Hvf Hpvc.
    apply String.eqb_neq in Haf, Hvt, Hvf, Hpvc.
    unfold generateArrhythmiaECG. rewrite Haf, Hvt, Hvf, Hpvc.
    change (String.eqb "NSR" "NSR") with true. cbv iota.
    now destruct (String.eqb rhythm "NSR").
  - intros rhythm st d phase t [-> | ->]; split; reflexivity.
Qed.

(** Atrial flutter selected on a fresh monitor. *)
Lemma flagged_rhythms_without_waveform_witness :
  ("AFL" <> "AF" /\ "AFL" <> "VT" /\ "AFL" <> "VF" /\ "AFL" <> "PVC")%string /\
  In "AFL"%string abnormalRhythms /\
  arrhythmiaOverlay
    (updateRhythmDisplay (set_currentRhythm "AFL" fresh) (mkAnalysisDom false "" false))
  = true /\
  generateArrhythmiaECG "AFL" 0.12 0 = generateArrhythmiaECG "NSR" 0.12 0.
Proof.
  destruct flagged_rhythms_without_waveform as (Hoverlay & Hdefault & Hflagged).
  assert (("AFL" <> "AF" /\ "AFL" <> "VT" /\ "AFL" <> "VF" /\ "AFL" <> "PVC")%string)
    as Hne by (repeat split; discriminate).
  assert (In "AFL"%string abnormalRhythms) as Hin by (right; left; reflexivity).
  split; [exact Hne|]. split; [exact Hin|].
  split.
  - apply (proj1 (Hoverlay (set_currentRhythm "AFL" fresh) (mkAnalysisDom false "" false))).
    exact Hin.
  - destruct Hne as (H1 & H2 & H3 & H4). exact (Hdefault "AFL"%string 0.12 0 H1 H2 H3 H4).
Defined.

Lemma artifacts_range (a : Artifacts) (amplitude time : R) (random : nat -> R)
    (i : nat) :
  (forall j : nat, 0 <= random j < 1) ->
  -1.2 <= fst (addArtifacts a amplitude time random i) - amplitude <= 1.2 /\
  fst (addArtifacts a amplitude time random i) - amplitude
  = fst (addArtifacts a 0 time random i) /\
  snd (addArtifacts a amplitude time random i) = (if poorContact a then S i else i).
Proof.
  intros Hrandom. pose proof (Hrandom i) as Hu.
  destruct a as [m p mt bd].
  destruct m, p, mt, bd; unfold addArtifacts, bind, ret, Math_random;
    cbn [motion poorContact muscleTremor baselineDrift fst snd];
    bound_sines; repeat split; lra.
Qed.

(** X14: artifacts are additive and bounded.  What [addArtifacts] adds does
    not depend on the amplitude it is given, lies in [[-1.2, 1.2]] when the
    draws lie in [[0, 1)], and is nothing when no flag is set; a random
    number is drawn exactly when [poorContact] is set. *)
Theorem addArtifacts_additive_and_bounded (a : Artifacts) (amplitude time : R)
    (random : nat -> R) (i : nat) :
  (forall j : nat, 0 <= random j < 1) ->
  fst (addArtifacts a amplitude time random i)
  = amplitude + fst (addArtifacts a 0 time random i) /\
  -1.2 <= fst (addArtifacts a 0 time random i) <= 1.2 /\
  snd (addArtifacts a amplitude time random i) = (if poorContact a then S i else i) /\
  addArtifacts (mkArtifacts false false false false) amplitude time random i
  = (amplitude, i).
Proof.
  intros Hrandom.
  destruct (artifacts_range a amplitude time random i Hrandom) as (Hrange & Hadd & Hdraw).
  split; [lra|]. split; [lra|]. split; [exact Hdraw|reflexivity].
Qed.

(** All four artifacts at time 3 on the amplitude 0.2. *)
Lemma addArtifacts_additive_and_bounded_witness :
  (forall j : nat, 0 <= no_noise j < 1) /\
  -1.2 <= fst (addArtifacts (mkArtifacts true true true true) 0 3 no_noise 0%nat) <= 1.2.
Proof.
  split; [exact no_noise_in_range|].
  destruct (addArtifacts_additive_and_bounded (mkArtifacts true true true true)
              0.2 3 no_noise 0%nat no_noise_in_range) as (_ & H & _).
  exact H.
Defined.

(** X15: a sample of the ECG frame stays within
    [2.725 + 0.3 * |stElevation|] of zero, for every rhythm, heart rate,
    time, column and artifact setting, when the draws lie in [[0, 1)]:
    1.5 for the beat, the ST offset, 0.025 of noise and 1.2 of
    artifacts. *)
Theorem ecg_sample_bounded (s : Signal) (time : R) (width x : nat)
    (random : nat -> R) (i : nat) :
  (forall j : nat, 0 <= random j < 1) ->
  Rabs (fst (ecg_sample s time width x random i))
  <= 2.725 + 0.3 * Rabs (sig_stElevation s).
Proof.
  intros Hrandom. unfold ecg_sample. cbv zeta. unfold bind at 1.
  set (t := time + INR x / INR width * 2).
  set (beatPhase := rem1 (t * sig_heartRate s / 60)).
  pose proof (base_amplitude_range (sig_rhythm s) beatPhase t random i Hrandom)
    as [Hbase _].
  destruct (generateArrhythmiaECG (sig_rhythm s) beatPhase t random i) as [a j].
  cbn [fst] in Hbase. unfold bind, Math_random.
  pose proof (Hrandom j) as Hu.
  match goal with
  | |- context [addArtifacts ?f ?amp ?tm random (S j)] =>
      pose proof (artifacts_range f amp tm random (S j) Hrandom) as (Hart & _ & _);
      set (r := fst (addArtifacts f amp tm random (S j))) in *; clearbody r
  end.
  pose proof (Rle_abs (sig_stElevation s)) as Hpos.
  pose proof (Rle_abs (- sig_stElevation s)) as Hneg.
  rewrite Rabs_Ropp in Hneg.
  apply Rabs_le.
  destruct (Rle_dec 0.15 beatPhase); [destruct (Rlt_dec beatPhase 0.25)|]; lra.
Qed.

(** The third column of a fresh monitor's frame at time 1. *)
Lemma ecg_sample_bounded_witness :
  (forall j : nat, 0 <= no_noise j < 1) /\
  Rabs (fst (ecg_sample fresh_signal 1 400 3 no_noise 0%nat))
  <= 2.725 + 0.3 * Rabs (sig_stElevation fresh_signal).
Proof.
  split; [exact no_noise_in_range|].
  exact (ecg_sample_bounded fresh_signal 1 400 3 no_noise 0%nat no_noise_in_range).
Defined.

(** X16: with an SpO2 between 0 and 100 a plethysmograph sample lies in
    [[-0.45, 1.05)], and between [-0.4 k - 0.05] and [k + 0.05] for
    [k = spo2 / 100]: the trace scales with the saturation.  One random
    number is drawn per sample. *)
Theorem pleth_sample_bounded (s : Signal) (time : R) (width x : nat)
    (random : nat -> R) (i : nat) :
  (forall j : nat, 0 <= random j < 1) ->
  0 <= sig_spo2 s <= 100 ->
  let k := sig_spo2 s / 100 in
  let sample := fst (pleth_sample s time width x random i) in
  - 0.4 * k - 0.05 <= sample < k + 0.05 /\
  - 0.45 <= sample < 1.05 /\
  snd (pleth_sample s time width x random i) = S i.
Proof.
  intros Hrandom Hspo2 k sample. pose proof (Hrandom i) as Hu.
  unfold sample, pleth_sample, bind, ret, Math_random. cbn [fst snd].
  bound_sines. unfold k.
  set (q := sig_spo2 s / 100) in *.
  assert (0 <= q <= 1) as Hq by (unfold q; lra).
  clearbody q. repeat split; nra.
Qed.

(** A fresh monitor, SpO2 98. *)
Lemma pleth_sample_bounded_witness :
  (forall j : nat, 0 <= no_noise j < 1) /\
  0 <= sig_spo2 fresh_signal <= 100 /\
  - 0.45 <= fst (pleth_sample fresh_signal 1 400 3 no_noise 0%nat) < 1.05.
Proof.
  assert (0 <= sig_spo2 fresh_signal <= 100) as Hspo2 by (cbn; lra).
  split; [exact no_noise_in_range|]. split; [exact Hspo2|].
  pose proof (pleth_sample_bounded fresh_signal 1 400 3 no_noise 0%nat
                no_noise_in_range Hspo2) as H.
  cbv zeta in H. exact (proj1 (proj2 H)).
Defined.

End WaveformBounds.


(** ** The heartbeat cue *)

Module HeartbeatFacts.

Import Waveform Heartbeat.
Local Open Scope R_scope.

Lemma variation_range (heartRate u : R) :
  0 <= u < 1 ->
  -0.075 <= variation heartRate u < 0.075 /\
  (60 <= heartRate <= 100 -> -0.04 <= variation heartRate u < 0.04) /\
  (100 < heartRate -> -0.025 <= variation heartRate u < 0.025).
Proof.
  intros Hu. unfold variation.
  destruct (Rlt_dec heartRate 60); [|destruct (Rlt_dec 100 heartRate)];
    repeat split; intros; lra.
Qed.

(** X18: the heartbeat cue keeps to the heart rate.  With audio on, a
    finite positive heart rate and draws in [[0, 1)], a call of
    [startHeartbeatAudio] draws one number and either finds the beep due or
    re-arms itself without a beep; the beep is due only if at least 92.5 %
    of [60000 / heartRate] ms have passed since the last beep, and always
    if 107.5 % have; between 60 and 100 beats per minute the two marks are
    96 % and 104 %.  A due beep sounds, is recorded as the last beep and the
    call re-arms itself when the volume is finite and not 0; at volume 0,
    or a volume that is not a number, the beep throws, the last beep stays
    as it was and the call does not re-arm itself.  With audio disabled or
    no audio context the call returns at once, without re-arming. *)
Theorem heartbeat_keeps_to_the_rate (st : Monitor) (volume : num)
    (lastHeartbeatTime : Z) (random : nat -> R) (i : nat) :
  (audioEnabled st = false \/ audioContext st = false ->
   startHeartbeatAudio st volume lastHeartbeatTime random i = (Returned, i)) /\
  (forall rate : R,
      audioEnabled st = true -> audioContext st = true ->
      to_R (v_heartRate (vitals st)) = Some rate -> 0 < rate ->
      (forall j : nat, 0 <= random j < 1) ->
      let base := 60000 / rate in
      let elapsed := IZR (now (win st) - lastHeartbeatTime) in
      let beep :=
        if createHeartbeatSound volume then Rearmed true (now (win st)) else Threw in
      let due :=
        startHeartbeatAudio st volume lastHeartbeatTime random i = (beep, S i) in
      let waits :=
        startHeartbeatAudio st volume lastHeartbeatTime random i
        = (Rearmed false lastHeartbeatTime, S i) in
      (due \/ waits) /\
      (due -> 0.925 * base <= elapsed) /\
      (1.075 * base <= elapsed -> due) /\
      (60 <= rate <= 100 ->
       (due -> 0.96 * base <= elapsed) /\ (1.04 * base <= elapsed -> due))) /\
  (createHeartbeatSound volume = true <->
   exists (m : Z) (e : nat), volume = Dec m e /\ m <> 0%Z).
Proof.
  split; [|split].
  - intros [H|H]; unfold startHeartbeatAudio; rewrite H; [reflexivity|].
    now rewrite Bool.orb_true_r.
  - intros rate Hen Hctx Hrate Hpos Hrandom base elapsed beep due waits.
    pose proof (Hrandom i) as Hu.
    destruct (variation_range rate (random i) Hu) as (Hv & Hnormal & _).
    assert (0 < base) as Hbase
      by (unfold base; apply Rdiv_lt_0_compat; lra).
    unfold due, waits, beep, startHeartbeatAudio.
    rewrite Hen, Hctx, Hrate. cbn [negb orb]. unfold bind, Math_random, ret.
    destruct (Req_dec_T rate 0) as [H0|_]; [lra|].
    unfold interval. cbv zeta. fold base. fold elapsed.
    set (v := variation rate (random i)) in *. clearbody v.
    destruct (createHeartbeatSound volume);
      destruct (Rle_dec (base * (1 + v)) elapsed) as [Hle|Hgt].
    1, 3: split; [now left|]; split; [intros _; nra|]; split; [reflexivity|];
      intros Hband; specialize (Hnormal Hband); split; [intros _; nra|reflexivity].
    all: split; [now right|]; split; [intros H; discriminate H|];
      split; [intros H; exfalso; nra|];
      intros Hband; specialize (Hnormal Hband);
      split; [intros H; discriminate H|intros H; exfalso; nra].
  - unfold createHeartbeatSound. destruct volume as [|m e].
    + split; [discriminate|]. intros (m & e & H & _). discriminate H.
    + rewrite Bool.negb_true_iff, Z.eqb_neq. split.
      * intros H. now exists m, e.
      * intros (m' & e' & H & Hm). now inversion H; subst.
Qed.

(** A fresh monitor one second after the last beep, at 72 beats per
    minute: more than 107.5 % of 833 ms have passed.  At volume 0.5 the
    beep sounds; at volume 0 it throws. *)
Lemma heartbeat_keeps_to_the_rate_witness :
  let st := elapse 1000 fresh in
  (audioEnabled (set_audioEnabled false st) = false \/
   audioContext (set_audioEnabled false st) = false) /\
  audioEnabled st = true /\ audioContext st = true /\
  to_R (v_heartRate (vitals st)) = Some (IZR 72 / IZR 1) /\
  0 < IZR 72 / IZR 1 /\
  (forall j : nat, 0 <= no_noise j < 1) /\
  60 <= IZR 72 / IZR 1 <= 100 /\
  1.075 * (60000 / (IZR 72 / IZR 1)) <= IZR (now (win st) - 0) /\
  startHeartbeatAudio (set_audioEnabled false st) (Dec 5 1) 0 no_noise 0%nat
  = (Returned, 0%nat) /\
  startHeartbeatAudio st (Dec 5 1) 0 no_noise 0%nat
  = (Rearmed true (now (win st)), 1%nat) /\
  startHeartbeatAudio st (Dec 0 0) 0 no_noise 0%nat = (Threw, 1%nat).
Proof.
  intros st.
  assert (audioEnabled st = true) as Hen by (vm_compute; reflexivity).
  assert (audioContext st = true) as Hctx by (vm_compute; reflexivity).
  assert (to_R (v_heartRate (vitals st)) = Some (IZR 72 / IZR 1)) as Hrate
    by (vm_compute; reflexivity).
  assert (now (win st) = 1000%Z) as Hnow by (vm_compute; reflexivity).
  assert (0 < IZR 72 / IZR 1) as Hpos by lra.
  assert (60 <= IZR 72 / IZR 1 <= 100) as Hband by lra.
  assert (1.075 * (60000 / (IZR 72 / IZR 1)) <= IZR (now (win st) - 0)) as Hlate
    by (rewrite Hnow; change (1000 - 0)%Z with 1000%Z; lra).
  destruct (heartbeat_keeps_to_the_rate (set_audioEnabled false st) (Dec 5 1) 0
              no_noise 0%nat) as [Hoff _].
  destruct (heartbeat_keeps_to_the_rate st (Dec 5 1) 0 no_noise 0%nat) as (_ & Hon & _).
  destruct (heartbeat_keeps_to_the_rate st (Dec 0 0) 0 no_noise 0%nat) as (_ & Hmute & _).
  specialize (Hon _ Hen Hctx Hrate Hpos WaveformBounds.no_noise_in_range).
  specialize (Hmute _ Hen Hctx Hrate Hpos WaveformBounds.no_noise_in_range).
  cbv zeta in Hon, Hmute.
  destruct Hon as (_ & _ & Hbeep & _). destruct Hmute as (_ & _ & Hthrow & _).
  split; [left; reflexivity|].
  split; [exact Hen|]. split; [exact Hctx|]. split; [exact Hrate|].
  split; [exact Hpos|]. split; [exact WaveformBounds.no_noise_in_range|].
  split; [exact Hband|]. split; [exact Hlate|].
  split; [apply Hoff; left; reflexivity|].
  split; [exact (Hbeep Hlate)|exact (Hthrow Hlate)].
Defined.

End HeartbeatFacts.

(** ** The ST display *)

Module AnalysisFacts.

Import Waveform.
Local Open Scope R_scope.

Lemma IZR_pow10_pos (e : nat) : 0 < IZR (pow10 e).
Proof. apply IZR_lt. apply pow10_pos. Qed.

(** [ltb] is the order of the values. *)
Lemma ltb_to_R (m1 m2 : Z) (e1 e2 : nat) :
  ltb (Dec m1 e1) (Dec m2 e2) = true
  <-> IZR m1 / IZR (pow10 e1) < IZR m2 / IZR (pow10 e2).
Proof.
  pose proof (IZR_pow10_pos e1) as H1. pose proof (IZR_pow10_pos e2) as H2.
  unfold ltb. rewrite Z.ltb_lt.
  set (p1 := pow10 e1) in *. set (p2 := pow10 e2) in *.
  assert (IZR m1 / IZR p1 < IZR m2 / IZR p2
          <-> IZR m1 * IZR p2 < IZR m2 * IZR p1) as Hcross.
  { split; intros H.
    - apply (Rmult_lt_compat_r (IZR p1 * IZR p2)) in H; [|nra].
      replace (IZR m1 / IZR p1 * (IZR p1 * IZR p2)) with (IZR m1 * IZR p2) in H
        by (field; lra).
      replace (IZR m2 / IZR p2 * (IZR p1 * IZR p2)) with (IZR m2 * IZR p1) in H
        by (field; lra).
      exact H.
    - apply (Rmult_lt_reg_r (IZR p1 * IZR p2)); [nra|].
      replace (IZR m1 / IZR p1 * (IZR p1 * IZR p2)) with (IZR m1 * IZR p2)
        by (field; lra).
      replace (IZR m2 / IZR p2 * (IZR p1 * IZR p2)) with (IZR m2 * IZR p1)
        by (field; lra).
      exact H. }
  rewrite Hcross, <- !mult_IZR. split; [apply IZR_lt|apply lt_IZR].
Qed.

(** X19: the ST overlay follows the two thresholds strictly.  For a finite
    ST value [r], [updateSTDisplay] raises the overlay exactly when
    [r > 0.1] or [r < -0.05], so the values 0.1 and -0.05 themselves do not
    raise it; a [NaN] value never does.  The rhythm elements are left
    alone. *)
Theorem st_overlay_follows_thresholds (st : Monitor) (d : AnalysisDom) :
  match to_R (stElevation st) with
  | Some r => stOverlay (updateSTDisplay st d) = true <-> (0.1 < r \/ r < -0.05)
  | None => stOverlay (updateSTDisplay st d) = false
  end /\
  rhythmValue (updateSTDisplay st d) = rhythmValue d /\
  arrhythmiaOverlay (updateSTDisplay st d) = arrhythmiaOverlay d.
Proof.
  unfold updateSTDisplay.
  destruct (stElevation st) as [|m e]; cbn [to_R].
  - cbn. now repeat split.
  - pose proof (ltb_to_R 1 m 1 e) as Hhigh. pose proof (ltb_to_R m (-5) e 2) as Hlow.
    change (pow10 1) with 10%Z in Hhigh. change (pow10 2) with 100%Z in Hlow.
    unfold gtb.
    assert (ltb (Dec 1 1) (Dec m e) || ltb (Dec m e) (Dec (-5) 2) = true
            <-> (0.1 < IZR m / IZR (pow10 e) \/ IZR m / IZR (pow10 e) < -0.05))
      as Hiff.
    { rewrite Bool.orb_true_iff, Hhigh, Hlow.
      split; (intros [H|H]; [left|right]; lra). }
    destruct (ltb (Dec 1 1) (Dec m e) || ltb (Dec m e) (Dec (-5) 2));
      cbn [stOverlay rhythmValue arrhythmiaOverlay];
      (split; [|split; reflexivity]).
    + split; [intros _; now apply Hiff|reflexivity].
    + split; [discriminate|]. intros H. apply Hiff in H. discriminate H.
Qed.

(** The boundary value 0.1 and the value 0.2. *)
Lemma st_overlay_follows_thresholds_witness :
  0.1 < IZR 2 / IZR 10 /\
  stOverlay (updateSTDisplay (set_stElevation (Dec 2 1) fresh) (mkAnalysisDom false "" false))
  = true /\
  stOverlay (updateSTDisplay (set_stElevation (Dec 1 1) fresh) (mkAnalysisDom false "" false))
  = false.
Proof.
  assert (0.1 < IZR 2 / IZR 10) as H by lra.
  split; [exact H|]. split; [|reflexivity].
  destruct (st_overlay_follows_thresholds (set_stElevation (Dec 2 1) fresh)
              (mkAnalysisDom false "" false)) as [Hiff _].
  change (to_R (stElevation (set_stElevation (Dec 2 1) fresh)))
    with (Some (IZR 2 / IZR 10)) in Hiff.
  apply Hiff. left. exact H.
Defined.

End AnalysisFacts.
